(** * babel-plugin-transform-modern-regexp: a shallow embedding of [index.js]

    The plugin rewrites the three source shapes that produce a regular
    expression (a regex literal, a [new RegExp(...)] call and the
    re-tagged template) and hands their raw text to the [regexp-tree]
    compat-transpiler.  The transpiler and the Babel traversal are
    collaborators of the plugin: the first is a value of type
    [RegexpTree] every definition is parameterised by, the second is
    reduced to the three primitives the plugin calls on a path. *)

From Stdlib Require Import String Ascii ZArith List Bool Lia Arith.
From Equations Require Import Equations.
Import ListNotations.

Local Open Scope string_scope.
Set Warnings "-register-all".

(* ================================================================== *)
(** ** JavaScript values *)

(** The option values the plugin reads ([state.opts.features] and the
    two toggles) are arbitrary JavaScript values. *)
Inductive JSValue : Type :=
| JSUndefined
| JSNull
| JSBoolean (b : bool)
| JSNumber (n : Z)
| JSNaN
| JSString (s : string)
| JSArray (elements : list JSValue)
| JSObject.

(** [ToBoolean] of ECMAScript: what [if (v)] and [!v] test. *)
Definition ToBoolean (v : JSValue) : bool :=
  match v with
  | JSUndefined | JSNull | JSNaN => false
  | JSBoolean b => b
  | JSNumber n => negb (n =? 0)%Z
  | JSString s => negb (s =? "")
  | JSArray _ | JSObject => true
  end.

(** Exceptions, and the completion of a computation that may throw. *)
Inductive exn : Type :=
| Error (message : string)
| TypeError (message : string)
| SyntaxError (message : string).

Inductive completion (A : Type) : Type :=
| Normal (a : A)
| Throw (e : exn).
Arguments Normal {A} a.
Arguments Throw {A} e.

(* ================================================================== *)
(** ** String primitives *)

Definition backslash : ascii := "092"%char.
Definition slash : ascii := "/"%char.

(** [\d] of a JavaScript regular expression: the ten ASCII digits. *)
Definition is_digit (c : ascii) : bool :=
  let n := nat_of_ascii c in ((48 <=? n)%nat && (n <=? 57)%nat)%bool.

Fixpoint all_digits (s : string) : bool :=
  match s with
  | EmptyString => true
  | String c s' => is_digit c && all_digits s'
  end.

(** [s.lastIndexOf(c)] for a one-character needle: the greatest index
    holding [c], or -1. *)
Fixpoint lastIndexOf_from (c : ascii) (s : string) (i acc : Z) : Z :=
  match s with
  | EmptyString => acc
  | String a s' =>
      lastIndexOf_from c s' (i + 1) (if Ascii.eqb a c then i else acc)
  end.

Definition lastIndexOf (s : string) (c : ascii) : Z :=
  lastIndexOf_from c s 0 (-1).

(** Relative index resolution of [String.prototype.slice]: a negative
    index counts from the end, and both ends are clamped. *)
Definition clamp_index (len i : Z) : Z :=
  if (i <? 0)%Z then Z.max (len + i) 0 else Z.min i len.

(** [s.slice(start, end)]; [None] stands for an omitted [end]. *)
Definition slice (s : string) (start : Z) (end_ : option Z) : string :=
  let len := Z.of_nat (String.length s) in
  let from := clamp_index len start in
  let to := match end_ with
            | Some e => clamp_index len e
            | None => len
            end in
  substring (Z.to_nat from) (Z.to_nat (Z.max (to - from) 0)) s.

(** A template literal interpolates an unassigned variable as the text
    [undefined]. *)
Definition interpolate (v : option string) : string :=
  match v with
  | Some s => s
  | None => "undefined"
  end.

(** [a[i] = v] on an array: in range it overwrites, at the end it
    appends, and beyond the end the array grows with empty slots. *)
Fixpoint array_set {A : Type} (hole : A) (i : nat) (v : A) (a : list A)
  : list A :=
  match i, a with
  | O, [] => [v]
  | O, _ :: rest => v :: rest
  | S i', [] => hole :: array_set hole i' v []
  | S i', x :: rest => x :: array_set hole i' v rest
  end.

(* ================================================================== *)
(** ** The escape normalizer: [re.replace(/\\\\(\d+)/g, '\\$1')] *)

(** Two backslashes in front of [s]. *)
Definition escaped (s : string) : string :=
  String backslash (String backslash s).

(** Whether [s] begins with a digit. *)
Definition starts_with_digit (s : string) : bool :=
  match s with
  | EmptyString => false
  | String c _ => is_digit c
  end.

(** The longest run of digits at the head of [s], and what follows. *)
Fixpoint span_digits (s : string) : string * string :=
  match s with
  | EmptyString => (EmptyString, EmptyString)
  | String c s' =>
      if is_digit c
      then let (ds, rest) := span_digits s' in (String c ds, rest)
      else (EmptyString, s)
  end.

(** One attempt of the regular expression [/\\\\(\d+)/] at the head of
    [s]: two backslashes and a greedy, non-empty run of digits.  The
    result is capture group 1 and the text after the match. *)
Definition match_escaped_digits (s : string) : option (string * string) :=
  match s with
  | String c1 (String c2 s') =>
      if Ascii.eqb c1 backslash && Ascii.eqb c2 backslash
      then match span_digits s' with
           | (EmptyString, _) => None
           | (ds, rest) => Some (ds, rest)
           end
      else None
  | _ => None
  end.

Lemma span_digits_length (s : string) :
  String.length (snd (span_digits s)) <= String.length s.
Proof.
  induction s as [|c s IH]; simpl; [lia|].
  destruct (is_digit c); simpl; [|lia].
  destruct (span_digits s); simpl in *; lia.
Qed.

Lemma match_escaped_digits_length (s ds rest : string) :
  match_escaped_digits s = Some (ds, rest) ->
  String.length rest < String.length s.
Proof.
  destruct s as [|c1 [|c2 s']]; simpl; try discriminate.
  destruct (Ascii.eqb c1 backslash && Ascii.eqb c2 backslash);
    try discriminate.
  pose proof (span_digits_length s') as Hlen.
  destruct (span_digits s') as [[|d ds'] r]; try discriminate.
  intros [= <- <-]. simpl in *. lia.
Qed.

(** Keeps the equation of a scrutinee in scope of the branch it selects. *)
Definition inspect {A : Type} (a : A) : {b : A | a = b} :=
  exist _ a eq_refl.

(** The global replace: scan from the left; where the expression
    matches, emit the replacement (one backslash and group 1) and resume
    after the match; elsewhere copy one character and move on. *)
Equations? replace_escaped_digits (s : string) : string
  by wf (String.length s) lt :=
  replace_escaped_digits EmptyString := EmptyString;
  replace_escaped_digits (String c s') with
    inspect (match_escaped_digits (String c s')) => {
    | exist _ (Some (ds, rest)) Heq :=
        String backslash (ds ++ replace_escaped_digits rest);
    | exist _ None _ := String c (replace_escaped_digits s') }.
Proof.
  exact (match_escaped_digits_length (String c s') ds rest Heq).
Qed.

(* ================================================================== *)
(** ** The syntax tree *)

(** [quasi.value] of a template chunk. *)
Record TemplateElement : Type := {
  value_raw : string;
  value_cooked : string
}.

(** [node.extra] as the parser fills it for a literal. *)
Record Extra : Type := { raw : string }.

(** A regex-literal node: the fields the plugin reads and writes. *)
Record RegExpLiteralNode : Type := {
  pattern : string;
  flags : string;
  extra : option Extra
}.

(** The expressions the plugin inspects, and a few others to stand for
    the shapes it must skip. *)
Inductive Node : Type :=
| Identifier (name : string)
| StringLiteral (value : string)
| NumericLiteral (value : Z)
| TemplateLiteral (quasis : list TemplateElement) (expressions : list Node)
| RegExpLiteral (re : RegExpLiteralNode)
| MemberExpression (object property : Node) (computed : bool)
| CallExpression (callee : Node) (arguments : list Node)
| NewExpression (callee : Node) (arguments : list Node)
| TaggedTemplateExpression (tag quasi : Node).

(** The slot left behind when an array write lands beyond the end. *)
Definition empty_slot : Node := Identifier "undefined".

(** The node builders of [babel-types] the plugin calls. *)
Module t.
Definition stringLiteral (value : string) : Node := StringLiteral value.

Definition regExpLiteral (pattern flags : string) : RegExpLiteralNode :=
  {| pattern := pattern; flags := flags; extra := None |}.
End t.

(* ================================================================== *)
(** ** Plugin state and the translation engine *)

(** [state.opts]: an absent option reads as [JSUndefined]. *)
Record Options : Type := {
  features : JSValue;
  useRe : JSValue;
  useRuntime : JSValue;
  includeRuntime : JSValue
}.

Record PluginPass : Type := { opts : Options }.

(** An object read through its own properties: a property it does not
    have reads as [undefined]. *)
Fixpoint get_property (object : list (string * JSValue)) (key : string)
  : JSValue :=
  match object with
  | [] => JSUndefined
  | (k, v) :: rest => if k =? key then v else get_property rest key
  end.

(** The file being compiled, as [babel-core] builds it.  [file.opts] are
    the options of Babel itself for that file ([filename], [plugins],
    [presets], ...); the options given to a plugin are not among its
    properties, they reach the plugin as the [opts] of its pass. *)
Module File.
Record t : Type := { opts : list (string * JSValue) }.
End File.

(** What [regexpTree.compatTranspile] returns. *)
Record TransformResult : Type := {
  getSource : string;
  getFlags : string
}.

(** [require('regexp-tree')]: the engine takes the raw regular expression
    and the whitelist, and may throw on text it cannot parse. *)
Record RegexpTree : Type := {
  compatTranspile : string -> JSValue -> completion TransformResult
}.

(* ================================================================== *)
(** ** Paths and visitor computations *)

(** A path is the slot of the tree a visitor works on.  [node_id] is the
    identity of the object held by the slot: a write to a field keeps it,
    [replaceWith] installs an object with a fresh one. *)
Record NodePath : Type := {
  node_id : nat;
  node : Node;
  next_id : nat
}.

(** A visitor body: it may change the path and may throw; a throw keeps
    the writes made before it. *)
Definition Visit (A : Type) : Type := NodePath -> NodePath * completion A.

Definition ret {A : Type} (a : A) : Visit A := fun path => (path, Normal a).

Definition bind {A B : Type} (m : Visit A) (k : A -> Visit B) : Visit B :=
  fun path =>
    match m path with
    | (path', Normal a) => k a path'
    | (path', Throw e) => (path', Throw e)
    end.

Notation "x <- m ;; k" := (bind m (fun x => k))
  (at level 61, m at next level, right associativity).

Definition lift {A : Type} (c : completion A) : Visit A :=
  fun path => (path, c).

(** A write to fields of [path.node]: same object, new contents. *)
Definition assign (n : Node) : Visit unit :=
  fun path =>
    ({| node_id := node_id path; node := n; next_id := next_id path |},
     Normal tt).

(** [path.replaceWith(n)]: the slot now holds another object. *)
Definition replaceWith (n : Node) : Visit unit :=
  fun path =>
    ({| node_id := next_id path; node := n; next_id := S (next_id path) |},
     Normal tt).

(* ================================================================== *)
(** ** The plugin *)

(** [re.extra = {raw}] on a freshly built literal. *)
Definition set_extra (re : RegExpLiteralNode) (e : Extra)
  : RegExpLiteralNode :=
  {| pattern := pattern re; flags := flags re; extra := Some e |}.

(** Creates a [RegExpLiteral] node. *)
Definition toRegExpLiteral (raw : string) : Node :=
  let slashIndex := lastIndexOf raw slash in
  let pattern := slice raw 1 (Some slashIndex) in
  let flags := slice raw slashIndex None in
  let re := t.regExpLiteral pattern flags in
  RegExpLiteral (set_extra re {| raw := raw |}).

(** Reading [getSource()] and [getFlags()] off the engine's result; a
    throw of the engine propagates. *)
Definition translated (c : completion TransformResult)
  : completion (string * string) :=
  match c with
  | Normal compat => Normal (getSource compat, getFlags compat)
  | Throw e => Throw e
  end.

(** Returns translated pattern, and flags. *)
Definition getTranslatedData (regexpTree : RegexpTree) (regexp : string)
    (state : PluginPass) : completion (string * string) :=
  let whitelist :=
    match features (opts state) with
    | JSArray elements =>
        if (0 <? List.length elements)%nat
        then features (opts state)
        else JSUndefined
    | _ => JSUndefined
    end in
  let compat := compatTranspile regexpTree regexp whitelist in
  translated compat.

(** Support only string/template literals in
    [new RegExp('string-literal', 'flags')].  The conjunction yields the
    first falsy operand, so a call without arguments yields [undefined]. *)
Definition isNewRegExp (callee : Node) (arguments : list Node) : JSValue :=
  match callee with
  | Identifier name =>
      if name =? "RegExp" then
        match nth_error arguments 0 with
        | None => JSUndefined
        | Some (StringLiteral _) => JSBoolean true
        | Some (TemplateLiteral quasis expressions) =>
            JSBoolean ((List.length expressions =? 0)%nat
                       && (List.length quasis =? 1)%nat)
        | Some _ => JSBoolean false
        end
      else JSBoolean false
  | _ => JSBoolean false
  end.

Definition isReTemplate (tag quasi : Node) : bool :=
  match tag with
  | Identifier name =>
      (name =? "re")
      && match quasi with
         | TemplateLiteral quasis _ => (List.length quasis =? 1)%nat
         | _ => false
         end
  | _ => false
  end.

(** The first chunk of a template: [quasis[0]], a [TypeError] to read
    through when the array is empty. *)
Definition first_quasi (quasis : list TemplateElement)
  : completion TemplateElement :=
  match nth_error quasis 0 with
  | Some q => Normal q
  | None => Throw (TypeError "Cannot read property value of undefined")
  end.

(** The pattern read off [node.arguments[0]]; the variable stays
    unassigned for any other node type. *)
Definition read_pattern (arguments : list Node)
  : completion (option string) :=
  match nth_error arguments 0 with
  | None => Throw (TypeError "Cannot read property type of undefined")
  | Some (StringLiteral value) => Normal (Some value)
  | Some (TemplateLiteral quasis _) =>
      match first_quasi quasis with
      | Normal q => Normal (Some (value_cooked q))
      | Throw e => Throw e
      end
  | Some _ => Normal None
  end.

(** The flags read off [node.arguments[1]], the empty string unless the
    argument is a string or template literal. *)
Definition read_flags (arguments : list Node) : completion string :=
  match nth_error arguments 1 with
  | None => Normal ""
  | Some (StringLiteral value) => Normal value
  | Some (TemplateLiteral quasis _) =>
      match first_quasi quasis with
      | Normal q => Normal (value_cooked q)
      | Throw e => Throw e
      end
  | Some _ => Normal ""
  end.

(** [babel-core] runs [plugin.pre.call(pass, file)]: the argument the
    plugin names [state] is the file, the pass is [this]. *)
Definition pre (state : File.t) : completion unit :=
  if ToBoolean (get_property (File.opts state) "useRuntime")
  then Throw (Error "useRuntime is not implemented yet.")
  else Normal tt.

Module visitor.

(** Handle [/foo/i]. *)
Definition RegExpLiteral (regexpTree : RegexpTree)
    (node : RegExpLiteralNode) (state : PluginPass) : Visit unit :=
  raw <- lift (match extra node with
               | Some e => Normal (raw e)
               | None =>
                   Throw (TypeError "Cannot read property raw of undefined")
               end) ;;
  data <- lift (getTranslatedData regexpTree raw state) ;;
  assign (RegExpLiteral
            {| pattern := fst data; flags := snd data;
               extra := extra node |}).

(** Handle the [re] shorthand: translate to a regex literal. *)
Definition TaggedTemplateExpression (tag quasi : Node)
    (state : PluginPass) : Visit unit :=
  if negb (ToBoolean (useRe (opts state))) || negb (isReTemplate tag quasi)
  then ret tt
  else
    re <- lift (match quasi with
                | TemplateLiteral quasis _ =>
                    match first_quasi quasis with
                    | Normal q => Normal (value_raw q)
                    | Throw e => Throw e
                    end
                | _ =>
                    Throw (TypeError "Cannot read property 0 of undefined")
                end) ;;
    let re := replace_escaped_digits re in
    replaceWith (toRegExpLiteral re).

(** Handle [new RegExp(<body>, <flags>)]: translate to a regex
    literal. *)
Definition NewExpression (callee : Node) (arguments : list Node)
    (state : PluginPass) : Visit unit :=
  if negb (ToBoolean (isNewRegExp callee arguments))
  then ret tt
  else
    pattern <- lift (read_pattern arguments) ;;
    flags <- lift (read_flags arguments) ;;
    let re := "/" ++ interpolate pattern ++ "/" ++ flags in
    replaceWith (toRegExpLiteral re).

End visitor.

(** The earlier revision of the plugin (the first module of [index.js]):
    no [re] shorthand, and the constructor call is rewritten in place. *)
Module Legacy.

Definition pre (state : File.t) : completion unit :=
  if ToBoolean (get_property (File.opts state) "includeRuntime")
  then Throw (Error "includeRuntime is not implemented yet.")
  else Normal tt.

Module visitor.

(** Handle [/foo/i]. *)
Definition RegExpLiteral (regexpTree : RegexpTree)
    (node : RegExpLiteralNode) (state : PluginPass) : Visit unit :=
  raw <- lift (match extra node with
               | Some e => Normal (raw e)
               | None =>
                   Throw
                     (TypeError "Cannot read property raw of undefined")
               end) ;;
  data <- lift (getTranslatedData regexpTree raw state) ;;
  assign (RegExpLiteral
            {| pattern := fst data; flags := snd data;
               extra := extra node |}).

(** Handle [new RegExp('foo', 'i')]. *)
Definition NewExpression (regexpTree : RegexpTree) (callee : Node)
    (arguments : list Node) (state : PluginPass) : Visit unit :=
  if negb (ToBoolean (isNewRegExp callee arguments))
  then ret tt
  else
    origPattern <- lift (read_pattern arguments) ;;
    origFlags <- lift (read_flags arguments) ;;
    let origRe := "/" ++ interpolate origPattern ++ "/" ++ origFlags in
    data <- lift (getTranslatedData regexpTree origRe state) ;;
    let arguments0 :=
      array_set empty_slot 0 (t.stringLiteral (fst data)) arguments in
    _ <- assign (NewExpression callee arguments0) ;;
    let arguments1 :=
      array_set empty_slot 1 (t.stringLiteral (snd data)) arguments0 in
    assign (NewExpression callee arguments1).

End visitor.

End Legacy.

(* ================================================================== *)
(** ** The host's side of the contract *)

(** Babel calls the visitor registered for the type of the node in the
    slot; other node types have no visitor. *)
Definition dispatch (regexpTree : RegexpTree) (state : PluginPass)
  : Visit unit :=
  fun path =>
    match node path with
    | RegExpLiteral re => visitor.RegExpLiteral regexpTree re state path
    | TaggedTemplateExpression tag quasi =>
        visitor.TaggedTemplateExpression tag quasi state path
    | NewExpression callee arguments =>
        visitor.NewExpression callee arguments state path
    | _ => (path, Normal tt)
    end.

(** [replaceWith] requeues the path: the replacement is visited in its
    turn (this is how the literal built from a constructor call or from
    the shorthand reaches the [RegExpLiteral] visitor). *)
Definition visit (regexpTree : RegexpTree) (state : PluginPass)
  : Visit unit :=
  fun path =>
    match dispatch regexpTree state path with
    | (path', Normal _) =>
        if (node_id path' =? node_id path)%nat
        then (path', Normal tt)
        else dispatch regexpTree state path'
    | (path', Throw e) => (path', Throw e)
    end.

Module LegacyHost.

Definition dispatch (regexpTree : RegexpTree) (state : PluginPass)
  : Visit unit :=
  fun path =>
    match node path with
    | RegExpLiteral re =>
        Legacy.visitor.RegExpLiteral regexpTree re state path
    | NewExpression callee arguments =>
        Legacy.visitor.NewExpression regexpTree callee arguments state path
    | _ => (path, Normal tt)
    end.

End LegacyHost.

(** One pass over a compilation unit: [babel-core] calls [pre] with the
    file, and starts the traversal, whose visitors receive the plugin
    pass, only when [pre] returns. *)
Definition run_pass {Program : Type}
    (traverse : PluginPass -> Program -> Program * completion unit)
    (file : File.t) (state : PluginPass) (program : Program)
  : Program * completion unit :=
  match pre file with
  | Throw e => (program, Throw e)
  | Normal _ => traverse state program
  end.

(** A traversal of a sequence of constructs, each in a slot of its own,
    stopping at the first throw. *)
Fixpoint traverse_all (regexpTree : RegexpTree) (state : PluginPass)
    (program : list NodePath) : list NodePath * completion unit :=
  match program with
  | [] => ([], Normal tt)
  | path :: rest =>
      match visit regexpTree state path with
      | (path', Normal _) =>
          let (rest', r) := traverse_all regexpTree state rest in
          (path' :: rest', r)
      | (path', Throw e) => (path' :: rest, Throw e)
      end
  end.

(* ================================================================== *)
(** ** A stand-in engine to run the plugin on examples *)

(** [s.includes(c)] for a one-character needle. *)
Fixpoint includes (s : string) (c : ascii) : bool :=
  match s with
  | EmptyString => false
  | String a s' => Ascii.eqb a c || includes s' c
  end.

(** Whether the parentheses of a regular-expression body are balanced. *)
Fixpoint balanced (depth : nat) (body : string) : bool :=
  match body with
  | EmptyString => (depth =? 0)%nat
  | String c body' =>
      if Ascii.eqb c "("%char then balanced (S depth) body'
      else if Ascii.eqb c ")"%char then
        match depth with
        | O => false
        | S d => balanced d body'
        end
      else balanced depth body'
  end.

Fixpoint drop_char (c : ascii) (s : string) : string :=
  match s with
  | EmptyString => EmptyString
  | String a s' =>
      if Ascii.eqb a c then drop_char c s' else String a (drop_char c s')
  end.

(** Whether a whitelist lets a feature through: [undefined] allows every
    feature, an array those it names. *)
Definition allows (whitelist : JSValue) (feature : string) : bool :=
  match whitelist with
  | JSArray elements =>
      existsb (fun v => match v with
                        | JSString s => s =? feature
                        | _ => false
                        end) elements
  | _ => true
  end.

(** An engine that rejects a body with unbalanced parentheses, and
    otherwise returns the body as it is and the flags, without [x] when
    the whitelist allows [xFlag]. *)
Definition sample_engine : RegexpTree :=
  {| compatTranspile := fun regexp whitelist =>
       let slashIndex := lastIndexOf regexp slash in
       let body := slice regexp 1 (Some slashIndex) in
       let fl := slice regexp (slashIndex + 1) None in
       if balanced 0 body
       then Normal {| getSource := body;
                      getFlags := if allows whitelist "xFlag"
                                  then drop_char "x" fl
                                  else fl |}
       else Throw (SyntaxError "Unexpected token") |}.

Definition no_options : Options :=
  {| features := JSUndefined; useRe := JSUndefined;
     useRuntime := JSUndefined; includeRuntime := JSUndefined |}.

Definition sample_state : PluginPass := {| opts := no_options |}.

(** [new RegExp('a', 'gx')] *)
Definition sample_call : NodePath :=
  {| node_id := 0;
     node := NewExpression (Identifier "RegExp")
               [StringLiteral "a"; StringLiteral "gx"];
     next_id := 1 |}.

(** [new RegExp('(')]: a body the engine rejects. *)
Definition unbalanced_call : NodePath :=
  {| node_id := 0;
     node := NewExpression (Identifier "RegExp") [StringLiteral "("];
     next_id := 1 |}.

(** [new RegExp('a', flags, extra)]: the flags are a variable. *)
Definition dynamic_flags_arguments : list Node :=
  [StringLiteral "a"; Identifier "flags"; NumericLiteral 7].

(** [new window.RegExp('a')]: the callee is not an identifier. *)
Definition member_callee : Node :=
  MemberExpression (Identifier "window") (Identifier "RegExp") false.

(** The chunk of the re-tagged template of the third scenario of the
    test fixture: a named group, a backreference by number authored with
    a doubled backslash, and a backreference by name. *)
Definition shorthand_chunk : TemplateElement :=
  let text := "/(?<name>x)" ++ escaped ("1" ++ String backslash "k<name>/") in
  {| value_raw := text; value_cooked := text |}.

Definition shorthand_state : PluginPass :=
  {| opts := {| features := JSUndefined; useRe := JSBoolean true;
                useRuntime := JSUndefined; includeRuntime := JSUndefined |} |}.

Definition shorthand_path : NodePath :=
  {| node_id := 0;
     node := TaggedTemplateExpression (Identifier "re")
               (TemplateLiteral [shorthand_chunk] []);
     next_id := 1 |}.

(** The file of a compilation that lists the plugin with its options. *)
Definition sample_file : File.t :=
  {| File.opts :=
       [("filename", JSString "input.js");
        ("plugins",
         JSArray [JSArray [JSString "transform-modern-regexp"; JSObject]])]
  |}.

Definition runtime_state : PluginPass :=
  {| opts := {| features := JSUndefined; useRe := JSUndefined;
                useRuntime := JSBoolean true;
                includeRuntime := JSUndefined |} |}.

Definition xflag_state : PluginPass :=
  {| opts := {| features := JSArray [JSString "namedCapturingGroups"];
                useRe := JSUndefined; useRuntime := JSUndefined;
                includeRuntime := JSUndefined |} |}.

(* ================================================================== *)
(** * Properties *)

(** ** Strings *)

Lemma length_append (s1 s2 : string) :
  String.length (s1 ++ s2) = String.length s1 + String.length s2.
Proof. induction s1 as [|c s1 IH]; simpl; [reflexivity | now rewrite IH]. Qed.

Lemma append_assoc (s1 s2 s3 : string) :
  (s1 ++ s2) ++ s3 = s1 ++ (s2 ++ s3).
Proof. induction s1 as [|c s1 IH]; simpl; [reflexivity | now rewrite IH]. Qed.

Lemma append_empty_r (s : string) : s ++ "" = s.
Proof. induction s as [|c s IH]; simpl; [reflexivity | now rewrite IH]. Qed.

Lemma substring_prefix (p r : string) :
  substring 0 (String.length p) (p ++ r) = p.
Proof.
  induction p as [|c p IH]; simpl.
  - destruct r; reflexivity.
  - now rewrite IH.
Qed.

Lemma substring_whole (s : string) : substring 0 (String.length s) s = s.
Proof.
  rewrite <- (append_empty_r s) at 2. apply substring_prefix.
Qed.

Lemma substring_skip (p r : string) (n : nat) :
  substring (String.length p) n (p ++ r) = substring 0 n r.
Proof. induction p as [|c p IH]; simpl; [reflexivity | exact IH]. Qed.

Lemma lastIndexOf_from_absent (c : ascii) (s : string) (i acc : Z) :
  includes s c = false -> lastIndexOf_from c s i acc = acc.
Proof.
  revert i acc. induction s as [|a s IH]; simpl; intros i acc H.
  - reflexivity.
  - apply orb_false_iff in H as [Ha Hs]. rewrite Ha. now apply IH.
Qed.

Lemma lastIndexOf_from_last (c : ascii) (p f : string) (i acc : Z) :
  includes f c = false ->
  lastIndexOf_from c (p ++ String c f) i acc
  = (i + Z.of_nat (String.length p))%Z.
Proof.
  revert i acc. induction p as [|a p IH]; simpl; intros i acc H.
  - rewrite Ascii.eqb_refl, lastIndexOf_from_absent by exact H. lia.
  - rewrite IH by exact H. lia.
Qed.

(** What [toRegExpLiteral] makes of the raw text of a literal whose flags
    hold no slash: the pattern is the body, and the flags field keeps the
    closing slash in front of the flags. *)
Lemma toRegExpLiteral_literal (p f : string) :
  includes f slash = false ->
  toRegExpLiteral ("/" ++ p ++ "/" ++ f)
  = RegExpLiteral {| pattern := p;
                     flags := "/" ++ f;
                     extra := Some {| raw := "/" ++ p ++ "/" ++ f |} |}.
Proof.
  intros Hf. unfold toRegExpLiteral, set_extra, t.regExpLiteral.
  cbn [pattern flags].
  assert (Hidx : lastIndexOf ("/" ++ p ++ "/" ++ f) slash
                 = (1 + Z.of_nat (String.length p))%Z).
  { unfold lastIndexOf. cbn [append lastIndexOf_from].
    change (String "/" f) with (String slash f).
    rewrite lastIndexOf_from_last by exact Hf. lia. }
  rewrite Hidx. unfold slice, clamp_index.
  set (len := Z.of_nat (String.length ("/" ++ p ++ "/" ++ f))).
  assert (Hlen : len = (2 + Z.of_nat (String.length p)
                        + Z.of_nat (String.length f))%Z).
  { unfold len. cbn [append String.length].
    rewrite length_append. cbn [String.length]. lia. }
  assert (H1 : (1 <? 0)%Z = false) by reflexivity.
  assert (H2 : (1 + Z.of_nat (String.length p) <? 0)%Z = false)
    by (apply Z.ltb_ge; lia).
  rewrite H1, H2.
  replace (Z.to_nat (Z.min 1 len)) with 1 by lia.
  replace (Z.to_nat
             (Z.max (Z.min (1 + Z.of_nat (String.length p)) len
                     - Z.min 1 len) 0))
    with (String.length p) by lia.
  replace (Z.to_nat (Z.min (1 + Z.of_nat (String.length p)) len))
    with (S (String.length p)) by lia.
  replace (Z.to_nat
             (Z.max (len - Z.min (1 + Z.of_nat (String.length p)) len) 0))
    with (String.length (String slash f)) by (cbn [String.length]; lia).
  f_equal. f_equal.
  - cbn [append substring]. apply substring_prefix.
  - cbn [append substring]. rewrite substring_skip. apply substring_whole.
Qed.


(** ** The literal builder *)

(** C2 (the code departs from the claim): decomposing the raw form
    [/abc/gi], built from the pattern [abc] and the flags [gi], yields
    the pattern [abc] but the flags field [/gi]: [raw.slice(slashIndex)]
    starts at the closing slash, not after it, so the flags are not
    recovered. *)
Example toRegExpLiteral_flags_keep_slash :
  exists re,
    toRegExpLiteral ("/" ++ "abc" ++ "/" ++ "gi") = RegExpLiteral re
    /\ pattern re = "abc"
    /\ flags re = "/gi"
    /\ flags re <> "gi".
Proof.
  eexists. split; [reflexivity|]. cbn. repeat split. discriminate.
Qed.

Section Properties.

Variable regexpTree : RegexpTree.
Variable state : PluginPass.

(** C10: a node built by [toRegExpLiteral] carries [extra.raw], equal to
    the raw string it was built from; hence whenever a visitor has
    replaced the node of a path, the replacement is a regex literal with
    a defined [extra.raw], and the [RegExpLiteral] visitor that visits it
    next hands exactly that text to the translation. *)
Theorem toRegExpLiteral_extra_raw :
  (forall raw0 : string,
      exists re, toRegExpLiteral raw0 = RegExpLiteral re
                 /\ extra re = Some {| raw := raw0 |})
  /\ (forall (path path' : NodePath) (c : completion unit),
         dispatch regexpTree state path = (path', c) ->
         node_id path' <> node_id path ->
         exists re raw0,
           node path' = RegExpLiteral re
           /\ extra re = Some {| raw := raw0 |}
           /\ dispatch regexpTree state path'
              = match getTranslatedData regexpTree raw0 state with
                | Normal data =>
                    ({| node_id := node_id path';
                        node := RegExpLiteral
                                  {| pattern := fst data; flags := snd data;
                                     extra := extra re |};
                        next_id := next_id path' |}, Normal tt)
                | Throw e => (path', Throw e)
                end).
Proof.
  split.
  - intros raw0. eexists. split; reflexivity.
  - intros path path' c Hd Hid.
    assert (Hrep : exists raw0, node path' = toRegExpLiteral raw0).
    { unfold dispatch in Hd.
      destruct (node path)
        as [nm|v|z|qs es|re|ob pr cp|cal args|cal args|tg qu] eqn:Hn;
        try (injection Hd as <- <-; congruence).
      - unfold visitor.RegExpLiteral, bind, lift, assign in Hd.
        destruct (extra re); [|injection Hd as <- <-; congruence].
        destruct (getTranslatedData regexpTree (raw e) state);
          injection Hd as <- <-; simpl in Hid; congruence.
      - unfold visitor.NewExpression, bind, lift, ret, replaceWith in Hd.
        destruct (negb (ToBoolean (isNewRegExp cal args)));
          [injection Hd as <- <-; congruence|].
        destruct (read_pattern args); [|injection Hd as <- <-; congruence].
        destruct (read_flags args); injection Hd as <- <-;
          [eexists; reflexivity | congruence].
      - unfold visitor.TaggedTemplateExpression, bind, lift, ret,
          replaceWith in Hd.
        destruct (negb (ToBoolean (useRe (opts state)))
                  || negb (isReTemplate tg qu));
          [injection Hd as <- <-; congruence|].
        destruct qu as [| | |quasis exprs| | | | |];
          try (injection Hd as <- <-; congruence).
        destruct (first_quasi quasis); injection Hd as <- <-;
          [eexists; reflexivity | congruence]. }
    destruct Hrep as [raw0 Hnode].
    eexists. exists raw0. split; [exact Hnode|]. split; [reflexivity|].
    unfold dispatch. rewrite Hnode. unfold toRegExpLiteral.
    unfold visitor.RegExpLiteral, bind, lift, assign. cbn [extra set_extra raw].
    destruct (getTranslatedData regexpTree raw0 state); reflexivity.
Qed.

(** ** The translation dispatcher *)

(** C6: [getTranslatedData] hands [opts.features] to the engine exactly
    when it is an array with at least one element, and [undefined] for
    every other value (absent, an empty array, not an array); it raises
    nothing of its own, so an error can only be the engine's. *)
Theorem getTranslatedData_whitelist (regexp : string) :
  (forall elements,
      features (opts state) = JSArray elements -> elements <> [] ->
      getTranslatedData regexpTree regexp state
      = translated (compatTranspile regexpTree regexp (JSArray elements)))
  /\ ((forall elements,
          features (opts state) = JSArray elements -> elements = []) ->
      getTranslatedData regexpTree regexp state
      = translated (compatTranspile regexpTree regexp JSUndefined))
  /\ (forall e,
         getTranslatedData regexpTree regexp state = Throw e ->
         exists whitelist,
           compatTranspile regexpTree regexp whitelist = Throw e).
Proof.
  unfold getTranslatedData, translated. repeat split.
  - intros elements Hf Hne. rewrite Hf.
    destruct elements as [|x xs]; [congruence|]. reflexivity.
  - intros Hempty. destruct (features (opts state)) eqn:Hf; try reflexivity.
    rewrite (Hempty elements eq_refl). reflexivity.
  - intros e H.
    match type of H with
    | context [compatTranspile regexpTree regexp ?w] =>
        exists w; destruct (compatTranspile regexpTree regexp w);
        [discriminate | congruence]
    end.
Qed.

(** ** The matchers *)

(** C7: [isNewRegExp] returns [true] exactly for a callee that is the
    identifier [RegExp] with a first argument that is a string literal or
    a template literal of one chunk and no expression; whenever it does
    not, the [NewExpression] visitor returns and the path is as it
    was. *)
Theorem isNewRegExp_spec (callee : Node) (arguments : list Node)
    (path : NodePath) :
  (isNewRegExp callee arguments = JSBoolean true
   <-> callee = Identifier "RegExp"
       /\ exists a rest,
           arguments = a :: rest
           /\ ((exists value, a = StringLiteral value)
               \/ (exists q, a = TemplateLiteral [q] [])))
  /\ (isNewRegExp callee arguments <> JSBoolean true ->
      visitor.NewExpression callee arguments state path = (path, Normal tt)).
Proof.
  split.
  - unfold isNewRegExp. split.
    + destruct callee; try discriminate.
      destruct (String.eqb_spec name "RegExp") as [->|]; [|discriminate].
      destruct arguments as [|a rest]; [discriminate|]. cbn [nth_error].
      intros H. split; [reflexivity|]. exists a, rest. split; [reflexivity|].
      destruct a; try discriminate.
      * left. eexists. reflexivity.
      * right. destruct expressions; [|discriminate].
        destruct quasis as [|q [|q' qs]]; try discriminate.
        exists q. reflexivity.
    + intros [-> (a & rest & -> & [[v ->] | [q ->]])]; reflexivity.
  - intros H. unfold visitor.NewExpression.
    destruct (isNewRegExp callee arguments) as [| |[|]| | | | |] eqn:Hi;
      try reflexivity; try congruence; exfalso; revert Hi;
      unfold isNewRegExp; destruct callee; try discriminate;
      destruct (name =? "RegExp"); try discriminate;
      destruct (nth_error arguments 0) as [[]|]; discriminate.
Qed.

(** C8: for a tagged template as the parser builds it (one chunk more
    than it has expressions), the visitor replaces the node by the regex
    literal of its normalized raw text exactly when [useRe] is enabled,
    the tag is the identifier [re] and the template is one chunk without
    expression; in every other case it returns and the path is as it
    was. *)
Theorem TaggedTemplateExpression_spec (tag : Node)
    (quasis : list TemplateElement) (expressions : list Node)
    (path : NodePath) :
  List.length quasis = S (List.length expressions) ->
  node path = TaggedTemplateExpression tag (TemplateLiteral quasis expressions) ->
  let rewrites :=
    ToBoolean (useRe (opts state)) = true
    /\ tag = Identifier "re"
    /\ (exists q, quasis = [q]) /\ expressions = [] in
  let result :=
    visitor.TaggedTemplateExpression
      tag (TemplateLiteral quasis expressions) state path in
  (rewrites ->
   exists q,
     quasis = [q]
     /\ result
        = replaceWith
            (toRegExpLiteral (replace_escaped_digits (value_raw q))) path
     /\ node (fst result) <> node path)
  /\ (~ rewrites -> result = (path, Normal tt)).
Proof.
  intros Hwf Hnode rewrites result. split.
  - intros (Hre & -> & [q ->] & ->). exists q. split; [reflexivity|].
    subst result. unfold visitor.TaggedTemplateExpression.
    rewrite Hre. cbn. split; [reflexivity|].
    rewrite Hnode. unfold toRegExpLiteral. discriminate.
  - intros Hno. subst result. unfold visitor.TaggedTemplateExpression.
    destruct (ToBoolean (useRe (opts state))) eqn:Hre; [|reflexivity].
    cbn [negb orb].
    destruct (isReTemplate tag (TemplateLiteral quasis expressions)) eqn:Hm;
      [|reflexivity].
    exfalso. apply Hno. unfold rewrites. split; [reflexivity|].
    unfold isReTemplate in Hm. destruct tag; try discriminate.
    apply andb_prop in Hm as [Hname Hlen].
    apply String.eqb_eq in Hname. subst name.
    apply Nat.eqb_eq in Hlen.
    destruct quasis as [|q [|q' qs]]; try discriminate.
    destruct expressions; [|discriminate].
    repeat split. exists q. reflexivity.
Qed.

(** ** The constructor call *)

Lemma array_set_first_two {A : Type} (hole x y a : A) (rest : list A) :
  array_set hole 1 y (array_set hole 0 x (a :: rest))
  = x :: y :: skipn 2 (a :: rest).
Proof. destruct rest; reflexivity. Qed.

Lemma isNewRegExp_reads (callee : Node) (arguments : list Node) :
  ToBoolean (isNewRegExp callee arguments) = true ->
  exists a rest p,
    arguments = a :: rest /\ read_pattern arguments = Normal (Some p).
Proof.
  unfold isNewRegExp. destruct callee; try discriminate.
  destruct (name =? "RegExp"); [|discriminate].
  destruct arguments as [|a rest]; [discriminate|]. cbn [nth_error].
  intros H. exists a, rest. unfold read_pattern. cbn [nth_error].
  destruct a; try discriminate.
  - eexists. split; reflexivity.
  - cbn [ToBoolean] in H. apply andb_prop in H as [_ Hq].
    destruct quasis as [|q qs]; [discriminate|].
    eexists. split; reflexivity.
Qed.

(** C1 (as amended): for a matched constructor call whose flags can be
    read, the current [NewExpression] visitor does not write to the call
    node: it replaces it by the regex literal built from the raw text
    [/pattern/flags], which the [RegExpLiteral] visitor then translates
    in place.  The in-place rewrite of the claim is what the earlier
    revision of the visitor does once the translation has succeeded:
    same node, same callee, first two arguments now the string literals
    of the translated pattern and flags, later arguments unchanged. *)
Theorem NewExpression_rewrite (callee : Node) (arguments : list Node)
    (path : NodePath) (f : string) :
  ToBoolean (isNewRegExp callee arguments) = true ->
  node path = NewExpression callee arguments ->
  read_flags arguments = Normal f ->
  exists p,
    read_pattern arguments = Normal (Some p)
    /\ visitor.NewExpression callee arguments state path
       = ({| node_id := next_id path;
             node := toRegExpLiteral ("/" ++ p ++ "/" ++ f);
             next_id := S (next_id path) |}, Normal tt)
    /\ forall p' f',
        getTranslatedData regexpTree ("/" ++ p ++ "/" ++ f) state
        = Normal (p', f') ->
        (node_id path <> next_id path ->
         visit regexpTree state path
         = ({| node_id := next_id path;
               node := RegExpLiteral
                         {| pattern := p'; flags := f';
                            extra := Some {| raw := "/" ++ p ++ "/" ++ f |} |};
               next_id := S (next_id path) |}, Normal tt))
        /\ Legacy.visitor.NewExpression regexpTree callee arguments state path
           = ({| node_id := node_id path;
                 node := NewExpression callee
                           (StringLiteral p' :: StringLiteral f'
                              :: skipn 2 arguments);
                 next_id := next_id path |}, Normal tt).
Proof.
  intros Hm Hnode Hf.
  destruct (isNewRegExp_reads callee arguments Hm) as (a & rest & p & Ha & Hp).
  exists p. split; [exact Hp|].
  assert (Hcur : visitor.NewExpression callee arguments state path
                 = ({| node_id := next_id path;
                       node := toRegExpLiteral ("/" ++ p ++ "/" ++ f);
                       next_id := S (next_id path) |}, Normal tt)).
  { unfold visitor.NewExpression, bind, lift, replaceWith.
    rewrite Hm, Hp, Hf. reflexivity. }
  split; [exact Hcur|].
  intros p' f' Ht. split.
  - intros Hfresh. unfold visit, dispatch at 1. rewrite Hnode, Hcur.
    cbn [node_id].
    destruct (Nat.eqb_spec (next_id path) (node_id path)) as [E|_];
      [congruence|].
    unfold dispatch. cbn [node]. unfold toRegExpLiteral.
    unfold visitor.RegExpLiteral, bind, lift, assign.
    cbn [extra set_extra raw]. rewrite Ht. reflexivity.
  - unfold Legacy.visitor.NewExpression, bind, lift, assign.
    rewrite Hm, Hp, Hf. cbn [negb interpolate]. rewrite Ht.
    cbn [fst snd node_id next_id]. subst arguments.
    unfold t.stringLiteral. rewrite array_set_first_two. reflexivity.
Qed.

(** C9: when the first argument matches and a second argument is present
    that is neither a string literal nor a template literal, the rewrite
    goes ahead with empty flags, without an error.  After the current
    visitor the slot holds, in place of the call, a fresh regex literal
    built from the raw text [/pattern/]: a node made of strings only, in
    which the flags expression no longer occurs.  The earlier revision
    translates [/pattern/] and overwrites the flags expression with the
    string literal of the translated flags. *)
Theorem NewExpression_dynamic_flags (callee a0 a1 : Node)
    (rest : list Node) (path : NodePath) :
  ToBoolean (isNewRegExp callee (a0 :: a1 :: rest)) = true ->
  (forall value, a1 <> StringLiteral value) ->
  (forall quasis expressions, a1 <> TemplateLiteral quasis expressions) ->
  exists p,
    read_pattern (a0 :: a1 :: rest) = Normal (Some p)
    /\ read_flags (a0 :: a1 :: rest) = Normal ""
    /\ (exists re,
          visitor.NewExpression callee (a0 :: a1 :: rest) state path
          = ({| node_id := next_id path;
                node := RegExpLiteral re;
                next_id := S (next_id path) |}, Normal tt)
          /\ RegExpLiteral re = toRegExpLiteral ("/" ++ p ++ "/" ++ "")
          /\ pattern re = p
          /\ extra re = Some {| raw := "/" ++ p ++ "/" ++ "" |})
    /\ Legacy.visitor.NewExpression
         regexpTree callee (a0 :: a1 :: rest) state path
       = match getTranslatedData regexpTree ("/" ++ p ++ "/" ++ "") state with
         | Normal data =>
             ({| node_id := node_id path;
                 node := NewExpression callee
                           (StringLiteral (fst data)
                              :: StringLiteral (snd data) :: rest);
                 next_id := next_id path |}, Normal tt)
         | Throw e => (path, Throw e)
         end.
Proof.
  intros Hm Hs Ht.
  destruct (isNewRegExp_reads _ _ Hm) as (a & rest' & p & _ & Hp).
  assert (Hf : read_flags (a0 :: a1 :: rest) = Normal "").
  { unfold read_flags. cbn [nth_error].
    destruct a1; try reflexivity.
    - exfalso. eapply Hs. reflexivity.
    - exfalso. eapply Ht. reflexivity. }
  exists p. split; [exact Hp|]. split; [exact Hf|]. split.
  - eexists. split; [|split; [|split]].
    + unfold visitor.NewExpression, bind, lift, replaceWith.
      rewrite Hm, Hp, Hf. cbn [negb interpolate].
      rewrite toRegExpLiteral_literal by reflexivity. reflexivity.
    + rewrite toRegExpLiteral_literal by reflexivity. reflexivity.
    + reflexivity.
    + reflexivity.
  - unfold Legacy.visitor.NewExpression, bind, lift, assign.
    rewrite Hm, Hp, Hf. cbn [negb interpolate].
    destruct (getTranslatedData regexpTree ("/" ++ p ++ "/" ++ "") state)
      as [data|e]; reflexivity.
Qed.

(** ** Failure of the translation *)

(** C3 (as amended): a visit that ends in an error leaves the path
    exactly as it was when the construct is a regex literal, and so does
    the earlier revision for every construct it handles.  For a
    constructor call or a re-tagged template the current visitors
    replace the node before anything is translated: when the engine then
    rejects the raw text of the construct (for a call the text
    [/pattern/flags] read off its arguments, for a shorthand the
    normalized raw text of its chunk), the error comes out of the visit
    of the replacement, and the slot holds the untranslated literal that
    [toRegExpLiteral] built from that very text. *)
Theorem failed_visit_state (path path' : NodePath) (e : exn) :
  (visit regexpTree state path = (path', Throw e) ->
   path' = path
   \/ exists raw0,
       ((exists callee arguments p f,
            node path = NewExpression callee arguments
            /\ read_pattern arguments = Normal (Some p)
            /\ read_flags arguments = Normal f
            /\ raw0 = "/" ++ p ++ "/" ++ f)
        \/ (exists q expressions,
               node path
               = TaggedTemplateExpression (Identifier "re")
                   (TemplateLiteral [q] expressions)
               /\ raw0 = replace_escaped_digits (value_raw q)))
       /\ path' = {| node_id := next_id path;
                     node := toRegExpLiteral raw0;
                     next_id := S (next_id path) |}
       /\ getTranslatedData regexpTree raw0 state = Throw e)
  /\ (forall re,
         node path = RegExpLiteral re ->
         visit regexpTree state path = (path', Throw e) -> path' = path)
  /\ (LegacyHost.dispatch regexpTree state path = (path', Throw e) ->
      path' = path).
Proof.
  assert (Hlit : forall p re,
             visitor.RegExpLiteral regexpTree re state p = (path', Throw e) ->
             path' = p
             /\ forall raw0, extra re = Some {| raw := raw0 |} ->
                             getTranslatedData regexpTree raw0 state = Throw e).
  { intros p re. unfold visitor.RegExpLiteral, bind, lift, assign.
    destruct (extra re) as [[r]|].
    - cbn [raw]. destruct (getTranslatedData regexpTree r state) eqn:Hg;
        [discriminate|].
      intros [= <- <-]. split; [reflexivity|]. intros raw0 [= <-]. exact Hg.
    - intros [= <- <-]. split; [reflexivity|]. discriminate. }
  assert (Hsecond : forall p raw0,
             dispatch regexpTree state
               {| node_id := next_id p; node := toRegExpLiteral raw0;
                  next_id := S (next_id p) |} = (path', Throw e) ->
             path' = {| node_id := next_id p; node := toRegExpLiteral raw0;
                        next_id := S (next_id p) |}
             /\ getTranslatedData regexpTree raw0 state = Throw e).
  { intros p raw0. unfold dispatch. cbn [node]. unfold toRegExpLiteral.
    intros H. apply Hlit in H as [-> H]. split; [reflexivity|].
    apply H. reflexivity. }
  assert (Hvisit : visit regexpTree state path = (path', Throw e) ->
            path' = path
            \/ exists raw0,
                ((exists callee arguments p f,
                     node path = NewExpression callee arguments
                     /\ read_pattern arguments = Normal (Some p)
                     /\ read_flags arguments = Normal f
                     /\ raw0 = "/" ++ p ++ "/" ++ f)
                 \/ (exists q expressions,
                        node path
                        = TaggedTemplateExpression (Identifier "re")
                            (TemplateLiteral [q] expressions)
                        /\ raw0 = replace_escaped_digits (value_raw q)))
                /\ path' = {| node_id := next_id path;
                              node := toRegExpLiteral raw0;
                              next_id := S (next_id path) |}
                /\ getTranslatedData regexpTree raw0 state = Throw e).
  { unfold visit, dispatch at 1.
    destruct (node path)
      as [nm|v|z|qs es|re|ob pr cp|cal args|cal args|tg qu] eqn:Hn;
      try (rewrite Nat.eqb_refl; discriminate).
    - destruct (visitor.RegExpLiteral regexpTree re state path)
        as [p1 [[]|e1]] eqn:Hv.
      + unfold visitor.RegExpLiteral, bind, lift, assign in Hv.
        destruct (extra re); [|discriminate].
        destruct (getTranslatedData regexpTree (raw e0) state);
          [|discriminate].
        injection Hv as <-. cbn [node_id]. rewrite Nat.eqb_refl.
        discriminate.
      + intros [= <- <-]. left. apply (Hlit path re) in Hv as [-> _].
        reflexivity.
    - unfold visitor.NewExpression, bind, lift, ret, replaceWith.
      destruct (negb (ToBoolean (isNewRegExp cal args))) eqn:Hm.
      { rewrite Nat.eqb_refl. discriminate. }
      apply negb_false_iff in Hm.
      destruct (isNewRegExp_reads cal args Hm) as (a & rest & p & _ & Hp).
      rewrite Hp.
      destruct (read_flags args) as [f|e1] eqn:Hf;
        [|intros [= <- <-]; left; reflexivity].
      cbn [node_id interpolate].
      destruct (next_id path =? node_id path)%nat; [discriminate|].
      intros H. apply Hsecond in H as [-> H]. right.
      exists ("/" ++ p ++ "/" ++ f). split; [|split; [reflexivity | exact H]].
      left. exists cal, args, p, f. repeat split; assumption.
    - unfold visitor.TaggedTemplateExpression, bind, lift, ret, replaceWith.
      destruct (negb (ToBoolean (useRe (opts state)))
                || negb (isReTemplate tg qu)) eqn:Hm.
      { rewrite Nat.eqb_refl. discriminate. }
      apply orb_false_iff in Hm as [_ Hm]. apply negb_false_iff in Hm.
      unfold isReTemplate in Hm. destruct tg as [nm| | | | | | | |];
        try discriminate.
      apply andb_prop in Hm as [Hname Hm].
      apply String.eqb_eq in Hname. subst nm.
      destruct qu as [| | |quasis exprs| | | | |]; try discriminate.
      destruct quasis as [|q [|q' quasis]]; try discriminate.
      cbn [first_quasi nth_error node_id].
      destruct (next_id path =? node_id path)%nat; [discriminate|].
      intros H. apply Hsecond in H as [-> H]. right.
      exists (replace_escaped_digits (value_raw q)).
      split; [|split; [reflexivity | exact H]].
      right. exists q, exprs. split; reflexivity. }
  split; [exact Hvisit|]. split.
  - intros re Hn Hv.
    destruct (Hvisit Hv)
      as [H|(raw0 & [(x & y & p & f & H & _)|(q & es & H & _)] & _)];
      [exact H | congruence | congruence].
  - unfold LegacyHost.dispatch.
    destruct (node path)
      as [nm|v|z|qs es|re|ob pr cp|cal args|cal args|tg qu] eqn:Hn;
      try discriminate.
    + intros H. apply (Hlit path re) in H as [-> _]. reflexivity.
    + unfold Legacy.visitor.NewExpression, bind, lift, ret, assign.
      destruct (negb (ToBoolean (isNewRegExp cal args))); [discriminate|].
      destruct (read_pattern args) as [p|e1];
        [|intros [= <- <-]; reflexivity].
      destruct (read_flags args) as [f|e1];
        [|intros [= <- <-]; reflexivity].
      destruct (getTranslatedData regexpTree _ state);
        [discriminate | intros [= <- <-]; reflexivity].
Qed.

(** ** Configuration *)

(** C4 (the code departs from the claim): [pre] tests [useRuntime] on
    the object it is handed, and that object is the file, not the plugin
    pass.  On a file whose options hold no [useRuntime], which is every
    file since it is not an option of Babel, [pre] raises nothing
    whatever the plugin options are, a truthy [useRuntime] included, and
    the pass is the traversal: the nodes are visited and rewritten. *)
Theorem pre_ignores_plugin_options {Program : Type}
    (traverse : PluginPass -> Program -> Program * completion unit)
    (file : File.t) (program : Program) :
  get_property (File.opts file) "useRuntime" = JSUndefined ->
  pre file = Normal tt
  /\ run_pass traverse file state program = traverse state program.
Proof.
  intros H. unfold run_pass, pre. rewrite H. split; reflexivity.
Qed.

End Properties.

(** ** The escape normalizer *)

Lemma replace_escaped_digits_match (c : ascii) (s' ds rest : string) :
  match_escaped_digits (String c s') = Some (ds, rest) ->
  replace_escaped_digits (String c s')
  = String backslash (ds ++ replace_escaped_digits rest).
Proof.
  intros H. rewrite replace_escaped_digits_equation_2.
  destruct (inspect (match_escaped_digits (String c s')))
    as [[[ds' rest']|] Heq].
  - rewrite replace_escaped_digits_clause_2_equation_1.
    rewrite H in Heq. injection Heq as <- <-. reflexivity.
  - congruence.
Qed.

Lemma replace_escaped_digits_no_match (c : ascii) (s' : string) :
  match_escaped_digits (String c s') = None ->
  replace_escaped_digits (String c s')
  = String c (replace_escaped_digits s').
Proof.
  intros H. rewrite replace_escaped_digits_equation_2.
  destruct (inspect (match_escaped_digits (String c s')))
    as [[[ds' rest']|] Heq].
  - congruence.
  - apply replace_escaped_digits_clause_2_equation_2.
Qed.

Lemma is_digit_backslash : is_digit backslash = false.
Proof. reflexivity. Qed.

Lemma span_digits_append (s ds rest x : string) :
  span_digits s = (ds, rest) ->
  starts_with_digit x = false ->
  span_digits (s ++ x) = (ds, rest ++ x).
Proof.
  revert ds rest. induction s as [|c s IH]; intros ds rest Hs Hx.
  - injection Hs as <- <-. cbn [append].
    destruct x as [|a x]; [reflexivity|].
    cbn [starts_with_digit] in Hx. cbn [span_digits]. now rewrite Hx.
  - cbn [append span_digits] in *. destruct (is_digit c).
    + destruct (span_digits s) as [d r]. injection Hs as <- <-.
      now rewrite (IH d r eq_refl Hx).
    + injection Hs as <- <-. reflexivity.
Qed.

Lemma span_digits_all (ds post : string) :
  all_digits ds = true ->
  starts_with_digit post = false ->
  span_digits (ds ++ post) = (ds, post).
Proof.
  intros Hd Hp. induction ds as [|d ds IH].
  - cbn [append]. destruct post as [|a x]; [reflexivity|].
    cbn [starts_with_digit] in Hp. cbn [span_digits]. now rewrite Hp.
  - cbn [all_digits] in Hd. apply andb_prop in Hd as [Hd1 Hd2].
    cbn [append span_digits]. rewrite Hd1, (IH Hd2). reflexivity.
Qed.

Lemma match_escaped_digits_here (ds post : string) :
  ds <> "" -> all_digits ds = true -> starts_with_digit post = false ->
  match_escaped_digits (escaped (ds ++ post)) = Some (ds, post).
Proof.
  intros Hne Hd Hp. unfold escaped, match_escaped_digits.
  rewrite Ascii.eqb_refl. cbn [andb].
  rewrite (span_digits_all ds post Hd Hp).
  destruct ds; [congruence | reflexivity].
Qed.

Lemma match_escaped_digits_append (s ds rest y : string) :
  match_escaped_digits s = Some (ds, rest) ->
  match_escaped_digits (s ++ escaped y) = Some (ds, rest ++ escaped y).
Proof.
  assert (Hy : starts_with_digit (escaped y) = false) by reflexivity.
  destruct s as [|c1 [|c2 s']]; try discriminate.
  cbn [append match_escaped_digits].
  destruct (Ascii.eqb c1 backslash && Ascii.eqb c2 backslash);
    [|discriminate].
  destruct (span_digits s') as [d r] eqn:Hs.
  rewrite (span_digits_append s' d r (escaped y) Hs Hy).
  destruct d; [discriminate|]. now intros [= <- <-].
Qed.

Lemma match_escaped_digits_append_none (s y : string) :
  s <> "" ->
  match_escaped_digits s = None ->
  match_escaped_digits (s ++ escaped y) = None.
Proof.
  assert (Hy : starts_with_digit (escaped y) = false) by reflexivity.
  intros Hne. destruct s as [|c1 [|c2 s']]; [congruence| |].
  - intros _. unfold escaped. cbn [append match_escaped_digits].
    destruct (Ascii.eqb c1 backslash && Ascii.eqb backslash backslash);
      [|reflexivity].
    cbn [span_digits]. rewrite is_digit_backslash. reflexivity.
  - cbn [append match_escaped_digits].
    destruct (Ascii.eqb c1 backslash && Ascii.eqb c2 backslash);
      [|reflexivity].
    destruct (span_digits s') as [d r] eqn:Hs.
    rewrite (span_digits_append s' d r (escaped y) Hs Hy).
    destruct d; [reflexivity | discriminate].
Qed.

Lemma replace_escaped_digits_append (n : nat) :
  forall pre ds post,
    String.length pre < n ->
    ds <> "" -> all_digits ds = true -> starts_with_digit post = false ->
    replace_escaped_digits (pre ++ escaped (ds ++ post))
    = replace_escaped_digits pre
      ++ String backslash (ds ++ replace_escaped_digits post).
Proof.
  induction n as [|n IH]; intros pre ds post Hlen Hne Hd Hp; [lia|].
  destruct pre as [|c pre'].
  - cbn [append]. rewrite replace_escaped_digits_equation_1. cbn [append].
    unfold escaped at 1. apply replace_escaped_digits_match.
    now apply match_escaped_digits_here.
  - destruct (match_escaped_digits (String c pre')) as [[d r]|] eqn:Hm.
    + pose proof (match_escaped_digits_length _ _ _ Hm) as Hr.
      rewrite (replace_escaped_digits_match c pre' d r Hm).
      pose proof (match_escaped_digits_append _ _ _ (ds ++ post) Hm) as Hm'.
      cbn [append] in Hm' |- *.
      rewrite (replace_escaped_digits_match _ _ _ _ Hm').
      rewrite IH by (try assumption; lia).
      now rewrite append_assoc.
    + rewrite (replace_escaped_digits_no_match c pre' Hm).
      assert (Hm' : match_escaped_digits
                      (String c pre' ++ escaped (ds ++ post)) = None)
        by (apply match_escaped_digits_append_none; [discriminate | exact Hm]).
      cbn [append] in Hm' |- *.
      rewrite (replace_escaped_digits_no_match _ _ Hm').
      rewrite IH by (try assumption; cbn [String.length] in Hlen; lia).
      reflexivity.
Qed.

Lemma match_escaped_digits_occurrence (s ds rest : string) :
  match_escaped_digits s = Some (ds, rest) ->
  exists d post, is_digit d = true /\ s = escaped (String d post).
Proof.
  unfold escaped. destruct s as [|c1 [|c2 s']]; try discriminate.
  cbn [match_escaped_digits].
  destruct (Ascii.eqb_spec c1 backslash) as [->|]; [|discriminate].
  destruct (Ascii.eqb_spec c2 backslash) as [->|]; [|discriminate].
  cbn [andb]. destruct s' as [|d post]; [discriminate|].
  cbn [span_digits]. destruct (is_digit d) eqn:Hd; [|discriminate].
  intros _. exists d, post. split; [exact Hd | reflexivity].
Qed.

Lemma replace_escaped_digits_all_digits (ds : string) :
  all_digits ds = true -> replace_escaped_digits ds = ds.
Proof.
  induction ds as [|d ds IH]; intros H.
  - apply replace_escaped_digits_equation_1.
  - cbn [all_digits] in H. apply andb_prop in H as [Hd Hds].
    rewrite replace_escaped_digits_no_match, (IH Hds); [reflexivity|].
    destruct (match_escaped_digits (String d ds)) as [[x r]|] eqn:Hm;
      [|reflexivity].
    apply match_escaped_digits_occurrence in Hm as (d' & post & _ & [= -> _]).
    rewrite is_digit_backslash in Hd. discriminate.
Qed.

(** C5: the normalization of the shorthand text.  Every occurrence of two
    backslashes and a following run of digits (taken whole: the text
    after it does not begin with a digit) becomes one backslash and the
    same digits, whatever text stands before and after, and that text is
    normalized on its own; a text without any such occurrence is left as
    it is, character for character; in particular one backslash and
    digits stay as they are. *)
Theorem replace_escaped_digits_spec :
  (forall pre ds post,
      ds <> "" -> all_digits ds = true -> starts_with_digit post = false ->
      replace_escaped_digits (pre ++ escaped (ds ++ post))
      = replace_escaped_digits pre
        ++ String backslash (ds ++ replace_escaped_digits post))
  /\ (forall s,
         (forall pre d post,
             is_digit d = true -> s <> pre ++ escaped (String d post)) ->
         replace_escaped_digits s = s)
  /\ (forall ds,
         all_digits ds = true ->
         replace_escaped_digits (String backslash ds) = String backslash ds).
Proof.
  split; [|split].
  - intros pre ds post. apply (replace_escaped_digits_append
                                 (S (String.length pre))). lia.
  - induction s as [|c s IH]; intros Hno.
    + apply replace_escaped_digits_equation_1.
    + rewrite replace_escaped_digits_no_match.
      * rewrite IH; [reflexivity|]. intros pre d post Hd ->.
        apply (Hno (String c pre) d post Hd). reflexivity.
      * destruct (match_escaped_digits (String c s)) as [[x r]|] eqn:Hm;
          [|reflexivity].
        apply match_escaped_digits_occurrence in Hm as (d & post & Hd & E).
        exfalso. apply (Hno "" d post Hd). exact E.
  - intros ds Hd. rewrite replace_escaped_digits_no_match.
    + now rewrite replace_escaped_digits_all_digits.
    + destruct (match_escaped_digits (String backslash ds))
        as [[x r]|] eqn:Hm; [|reflexivity].
      apply match_escaped_digits_occurrence in Hm as (d & post & _ & E).
      injection E as ->. cbn [all_digits] in Hd.
      rewrite is_digit_backslash in Hd. discriminate.
Qed.

(* ================================================================== *)
(** * The theorems at work on the sample inputs *)

Lemma toRegExpLiteral_extra_raw_witness :
  node_id (fst (dispatch sample_engine sample_state sample_call))
  <> node_id sample_call
  /\ exists re raw0,
      node (fst (dispatch sample_engine sample_state sample_call))
      = RegExpLiteral re
      /\ extra re = Some {| raw := raw0 |}
      /\ dispatch sample_engine sample_state
           (fst (dispatch sample_engine sample_state sample_call))
         = match getTranslatedData sample_engine raw0 sample_state with
           | Normal data =>
               ({| node_id := 1;
                   node := RegExpLiteral
                             {| pattern := fst data; flags := snd data;
                                extra := extra re |};
                   next_id := 2 |}, Normal tt)
           | Throw e =>
               (fst (dispatch sample_engine sample_state sample_call),
                Throw e)
           end.
Proof.
  split; [vm_compute; lia|].
  apply (proj2 (toRegExpLiteral_extra_raw sample_engine sample_state)
           sample_call
           (fst (dispatch sample_engine sample_state sample_call))
           (Normal tt)).
  - reflexivity.
  - vm_compute. lia.
Defined.

Lemma getTranslatedData_whitelist_witness :
  features (opts xflag_state) = JSArray [JSString "namedCapturingGroups"]
  /\ getTranslatedData sample_engine "/a/gx" xflag_state
     = translated
         (compatTranspile sample_engine "/a/gx"
            (JSArray [JSString "namedCapturingGroups"])).
Proof.
  split; [reflexivity|].
  apply (proj1 (getTranslatedData_whitelist sample_engine xflag_state "/a/gx")).
  - reflexivity.
  - discriminate.
Defined.

Lemma isNewRegExp_spec_witness :
  isNewRegExp member_callee [StringLiteral "a"] <> JSBoolean true
  /\ visitor.NewExpression member_callee [StringLiteral "a"]
       sample_state sample_call
     = (sample_call, Normal tt).
Proof.
  split; [vm_compute; discriminate|].
  apply (proj2 (isNewRegExp_spec sample_state member_callee
                  [StringLiteral "a"] sample_call)).
  vm_compute. discriminate.
Defined.

Lemma TaggedTemplateExpression_spec_witness :
  exists q,
    [shorthand_chunk] = [q]
    /\ visitor.TaggedTemplateExpression (Identifier "re")
         (TemplateLiteral [shorthand_chunk] []) shorthand_state shorthand_path
       = replaceWith
           (toRegExpLiteral (replace_escaped_digits (value_raw q)))
           shorthand_path
    /\ node (fst (visitor.TaggedTemplateExpression (Identifier "re")
                    (TemplateLiteral [shorthand_chunk] [])
                    shorthand_state shorthand_path))
       <> node shorthand_path.
Proof.
  apply (proj1 (TaggedTemplateExpression_spec shorthand_state
                  (Identifier "re") [shorthand_chunk] [] shorthand_path
                  eq_refl eq_refl)).
  repeat split. exists shorthand_chunk. reflexivity.
Defined.

Lemma NewExpression_rewrite_witness :
  ToBoolean (isNewRegExp (Identifier "RegExp")
               [StringLiteral "a"; StringLiteral "gx"]) = true
  /\ exists p,
      read_pattern [StringLiteral "a"; StringLiteral "gx"] = Normal (Some p)
      /\ visitor.NewExpression (Identifier "RegExp")
           [StringLiteral "a"; StringLiteral "gx"] sample_state sample_call
         = ({| node_id := 1;
               node := toRegExpLiteral ("/" ++ p ++ "/" ++ "gx");
               next_id := 2 |}, Normal tt)
      /\ Legacy.visitor.NewExpression sample_engine (Identifier "RegExp")
           [StringLiteral "a"; StringLiteral "gx"] sample_state sample_call
         = ({| node_id := 0;
               node := NewExpression (Identifier "RegExp")
                         [StringLiteral "a"; StringLiteral "g"];
               next_id := 1 |}, Normal tt).
Proof.
  split; [reflexivity|].
  destruct (NewExpression_rewrite sample_engine sample_state
              (Identifier "RegExp") [StringLiteral "a"; StringLiteral "gx"]
              sample_call "gx" eq_refl eq_refl eq_refl)
    as (p & Hp & Hcur & Hrest).
  exists p. split; [exact Hp|]. split; [exact Hcur|].
  injection Hp as <-.
  exact (proj2 (Hrest "a" "g" eq_refl)).
Defined.

Lemma NewExpression_dynamic_flags_witness :
  ToBoolean (isNewRegExp (Identifier "RegExp") dynamic_flags_arguments) = true
  /\ read_flags dynamic_flags_arguments = Normal ""
  /\ visitor.NewExpression (Identifier "RegExp") dynamic_flags_arguments
       sample_state sample_call
     = ({| node_id := 1;
           node := RegExpLiteral
                     {| pattern := "a"; flags := "/";
                        extra := Some {| raw := "/a/" |} |};
           next_id := 2 |}, Normal tt)
  /\ Legacy.visitor.NewExpression sample_engine (Identifier "RegExp")
       dynamic_flags_arguments sample_state sample_call
     = ({| node_id := 0;
           node := NewExpression (Identifier "RegExp")
                     [StringLiteral "a"; StringLiteral ""; NumericLiteral 7];
           next_id := 1 |}, Normal tt).
Proof.
  split; [reflexivity|].
  destruct (NewExpression_dynamic_flags sample_engine sample_state
              (Identifier "RegExp") (StringLiteral "a") (Identifier "flags")
              [NumericLiteral 7] sample_call eq_refl)
    as (p & Hp & Hf & (re & Hcur & Hre & _ & _) & Hold).
  - discriminate.
  - discriminate.
  - split; [exact Hf|]. injection Hp as <-.
    unfold dynamic_flags_arguments.
    split; [rewrite Hcur, Hre; reflexivity|].
    rewrite Hold. reflexivity.
Defined.

Lemma failed_visit_state_witness :
  visit sample_engine sample_state unbalanced_call
  = ({| node_id := 1; node := toRegExpLiteral "/(/"; next_id := 2 |},
     Throw (SyntaxError "Unexpected token"))
  /\ ({| node_id := 1; node := toRegExpLiteral "/(/"; next_id := 2 |}
      = unbalanced_call
      \/ exists raw0,
          ((exists callee arguments p f,
               node unbalanced_call = NewExpression callee arguments
               /\ read_pattern arguments = Normal (Some p)
               /\ read_flags arguments = Normal f
               /\ raw0 = "/" ++ p ++ "/" ++ f)
           \/ (exists q expressions,
                  node unbalanced_call
                  = TaggedTemplateExpression (Identifier "re")
                      (TemplateLiteral [q] expressions)
                  /\ raw0 = replace_escaped_digits (value_raw q)))
          /\ {| node_id := 1; node := toRegExpLiteral "/(/"; next_id := 2 |}
             = {| node_id := next_id unbalanced_call;
                  node := toRegExpLiteral raw0;
                  next_id := S (next_id unbalanced_call) |}
          /\ getTranslatedData sample_engine raw0 sample_state
             = Throw (SyntaxError "Unexpected token")).
Proof.
  split; [reflexivity|].
  apply (proj1 (failed_visit_state sample_engine sample_state
                  unbalanced_call _ _)).
  reflexivity.
Defined.

Lemma pre_ignores_plugin_options_witness :
  ToBoolean (useRuntime (opts runtime_state)) = true
  /\ get_property (File.opts sample_file) "useRuntime" = JSUndefined
  /\ pre sample_file = Normal tt
  /\ run_pass (traverse_all sample_engine) sample_file runtime_state
       [sample_call]
     = ([{| node_id := 1;
            node := RegExpLiteral
                      {| pattern := "a"; flags := "g";
                         extra := Some {| raw := "/a/gx" |} |};
            next_id := 2 |}], Normal tt).
Proof.
  split; [reflexivity|]. split; [reflexivity|].
  destruct (pre_ignores_plugin_options runtime_state
              (traverse_all sample_engine) sample_file [sample_call]
              eq_refl) as [Hpre Hrun].
  split; [exact Hpre|]. rewrite Hrun. reflexivity.
Defined.

Lemma replace_escaped_digits_spec_witness :
  replace_escaped_digits
    ("/(?<name>x)" ++ escaped ("1" ++ String backslash "k<name>/"))
  = replace_escaped_digits "/(?<name>x)"
    ++ String backslash
         ("1" ++ replace_escaped_digits (String backslash "k<name>/")).
Proof.
  apply (proj1 replace_escaped_digits_spec).
  - discriminate.
  - reflexivity.
  - reflexivity.
Defined.

(** ** Where the claims as stated fail *)

(** C1 (as stated): the visit of [new RegExp('a', 'gx')] ends with a
    regex literal in the slot, an object other than the call node: the
    call was not rewritten in place. *)
Lemma NewExpression_call_replaced :
  visitor.NewExpression (Identifier "RegExp")
    [StringLiteral "a"; StringLiteral "gx"] sample_state sample_call
  = ({| node_id := 1; node := toRegExpLiteral "/a/gx"; next_id := 2 |},
     Normal tt)
  /\ visit sample_engine sample_state sample_call
     = ({| node_id := 1;
           node := RegExpLiteral
                     {| pattern := "a"; flags := "g";
                        extra := Some {| raw := "/a/gx" |} |};
           next_id := 2 |}, Normal tt)
  /\ ~ (node_id (fst (visit sample_engine sample_state sample_call))
        = node_id sample_call
        /\ exists p f rest,
            node (fst (visit sample_engine sample_state sample_call))
            = NewExpression (Identifier "RegExp")
                (StringLiteral p :: StringLiteral f :: rest)).
Proof.
  split; [reflexivity|]. split; [reflexivity|].
  intros [Hid _]. vm_compute in Hid. discriminate.
Qed.

(** C3 (as stated): the engine rejects the raw text [/(/] of
    [new RegExp('(')], and the visit that ends in this error leaves
    the slot holding the untranslated literal, not the call it held
    before. *)
Lemma failed_translation_leaves_replacement :
  compatTranspile sample_engine "/(/" JSUndefined
  = Throw (SyntaxError "Unexpected token")
  /\ visit sample_engine sample_state unbalanced_call
     = ({| node_id := 1;
           node := RegExpLiteral
                     {| pattern := "("; flags := "/";
                        extra := Some {| raw := "/(/" |} |};
           next_id := 2 |},
        Throw (SyntaxError "Unexpected token"))
  /\ fst (visit sample_engine sample_state unbalanced_call)
     <> unbalanced_call.
Proof.
  split; [reflexivity|]. split; [reflexivity|].
  vm_compute. discriminate.
Qed.

(* ================================================================== *)
(** * Further properties of the plugin *)

(** ** How [toRegExpLiteral] splits a raw text *)

Lemma slice_between (s : string) (i j : nat) :
  i <= j -> j <= String.length s ->
  slice s (Z.of_nat i) (Some (Z.of_nat j)) = substring i (j - i) s.
Proof.
  intros Hij Hj. unfold slice, clamp_index.
  assert (Hi : (Z.of_nat i <? 0)%Z = false) by (apply Z.ltb_ge; lia).
  assert (Hj' : (Z.of_nat j <? 0)%Z = false) by (apply Z.ltb_ge; lia).
  rewrite Hi, Hj'. f_equal; lia.
Qed.

Lemma slice_from (s : string) (i : nat) :
  i <= String.length s ->
  slice s (Z.of_nat i) None = substring i (String.length s - i) s.
Proof.
  intros Hi. unfold slice, clamp_index.
  assert (Hi' : (Z.of_nat i <? 0)%Z = false) by (apply Z.ltb_ge; lia).
  rewrite Hi'. f_equal; lia.
Qed.

Lemma substring_nothing (s : string) (n : nat) : substring n 0 s = "".
Proof.
  revert n. induction s as [|c s IH]; intros [|n]; cbn [substring];
    auto.
Qed.

(** X1: a raw text with a slash after its first character is split at
    its last slash: the first character is dropped whatever it is, the
    pattern is all that stands before the last slash (earlier slashes
    included), and the flags field starts at that slash. *)
Theorem toRegExpLiteral_last_slash (c : ascii) (pre f : string) :
  includes f slash = false ->
  toRegExpLiteral (String c (pre ++ String slash f))
  = RegExpLiteral
      {| pattern := pre;
         flags := String slash f;
         extra := Some {| raw := String c (pre ++ String slash f) |} |}.
Proof.
  intros Hf. unfold toRegExpLiteral, set_extra, t.regExpLiteral.
  cbn [pattern flags].
  set (text := String c (pre ++ String slash f)).
  assert (Hlen : String.length text
                 = S (String.length pre + S (String.length f))).
  { unfold text. cbn [String.length]. rewrite length_append. reflexivity. }
  assert (Hidx : lastIndexOf text slash
                 = Z.of_nat (S (String.length pre))).
  { unfold lastIndexOf, text. cbn [lastIndexOf_from].
    rewrite lastIndexOf_from_last by exact Hf. lia. }
  rewrite Hidx.
  change 1%Z with (Z.of_nat 1).
  rewrite slice_between by lia.
  rewrite slice_from by lia.
  rewrite Hlen.
  replace (S (String.length pre) - 1) with (String.length pre) by lia.
  replace (S (String.length pre + S (String.length f))
           - S (String.length pre))
    with (String.length (String slash f)) by (cbn [String.length]; lia).
  unfold text. cbn [substring].
  rewrite substring_prefix, substring_skip, substring_whole. reflexivity.
Qed.

(** X2: a raw text of two characters or more without any slash (a
    shorthand written without delimiters) raises nothing: its first
    character is dropped, its last character becomes the flags field,
    and the pattern is what stands between them. *)
Theorem toRegExpLiteral_no_slash (a z : ascii) (mid : string) :
  includes (String a (mid ++ String z "")) slash = false ->
  toRegExpLiteral (String a (mid ++ String z ""))
  = RegExpLiteral
      {| pattern := mid;
         flags := String z "";
         extra := Some {| raw := String a (mid ++ String z "") |} |}.
Proof.
  intros Hno. unfold toRegExpLiteral, set_extra, t.regExpLiteral.
  cbn [pattern flags].
  set (text := String a (mid ++ String z "")).
  assert (Hlen : String.length text = S (String.length mid + 1)).
  { unfold text. cbn [String.length]. rewrite length_append. reflexivity. }
  assert (Hidx : lastIndexOf text slash = (-1)%Z).
  { unfold lastIndexOf. apply lastIndexOf_from_absent. exact Hno. }
  rewrite Hidx. unfold slice, clamp_index. rewrite Hlen.
  assert (H1 : (1 <? 0)%Z = false) by reflexivity.
  assert (H2 : (-1 <? 0)%Z = true) by reflexivity.
  rewrite H1, H2.
  set (len := Z.of_nat (S (String.length mid + 1))).
  replace (Z.to_nat (Z.min 1 len)) with 1 by lia.
  replace (Z.to_nat (Z.max (Z.max (len + -1) 0 - Z.min 1 len) 0))
    with (String.length mid) by lia.
  replace (Z.to_nat (Z.max (len + -1) 0))
    with (S (String.length mid)) by lia.
  replace (Z.to_nat (Z.max (len - Z.max (len + -1) 0) 0))
    with (String.length (String z "")) by (cbn [String.length]; lia).
  unfold text. cbn [substring].
  rewrite substring_prefix, substring_skip, substring_whole. reflexivity.
Qed.

(** X3: when the only slash of a raw text is its first character (a
    shorthand whose closing delimiter is missing), the pattern is empty
    and the flags field is the whole raw text. *)
Theorem toRegExpLiteral_leading_slash_only (f : string) :
  includes f slash = false ->
  toRegExpLiteral (String slash f)
  = RegExpLiteral
      {| pattern := "";
         flags := String slash f;
         extra := Some {| raw := String slash f |} |}.
Proof.
  intros Hf. unfold toRegExpLiteral, set_extra, t.regExpLiteral.
  cbn [pattern flags].
  assert (Hidx : lastIndexOf (String slash f) slash = Z.of_nat 0).
  { unfold lastIndexOf. cbn [lastIndexOf_from]. rewrite Ascii.eqb_refl.
    apply lastIndexOf_from_absent. exact Hf. }
  rewrite Hidx. rewrite slice_from by lia.
  unfold slice, clamp_index.
  assert (H1 : (1 <? 0)%Z = false) by reflexivity.
  assert (H0 : (Z.of_nat 0 <? 0)%Z = false) by reflexivity.
  rewrite H1, H0.
  replace (Z.to_nat
             (Z.max (Z.min (Z.of_nat 0)
                           (Z.of_nat (String.length (String slash f)))
                     - Z.min 1 (Z.of_nat (String.length (String slash f))))
                    0))
    with 0 by lia.
  rewrite substring_nothing, Nat.sub_0_r, substring_whole. reflexivity.
Qed.

(** ** What the normalizer keeps *)

Lemma span_digits_split (s ds rest : string) :
  span_digits s = (ds, rest) -> s = ds ++ rest /\ all_digits ds = true.
Proof.
  revert ds rest. induction s as [|c s IH]; intros ds rest H.
  - injection H as <- <-. split; reflexivity.
  - cbn [span_digits] in H. destruct (is_digit c) eqn:Hc.
    + destruct (span_digits s) as [d r]. injection H as <- <-.
      destruct (IH d r eq_refl) as [-> Hd]. split; [reflexivity|].
      cbn [all_digits]. now rewrite Hc, Hd.
    + injection H as <- <-. split; reflexivity.
Qed.

Lemma match_escaped_digits_shape (s ds rest : string) :
  match_escaped_digits s = Some (ds, rest) ->
  s = escaped (ds ++ rest) /\ all_digits ds = true.
Proof.
  unfold escaped. destruct s as [|c1 [|c2 s']]; try discriminate.
  cbn [match_escaped_digits].
  destruct (Ascii.eqb_spec c1 backslash) as [->|]; [|discriminate].
  destruct (Ascii.eqb_spec c2 backslash) as [->|]; [|discriminate].
  cbn [andb]. destruct (span_digits s') as [d r] eqn:Hs.
  destruct d as [|x d]; [discriminate|]. intros [= <- <-].
  destruct (span_digits_split _ _ _ Hs) as [-> Hd]. split; [reflexivity|].
  exact Hd.
Qed.

Lemma drop_char_append (c : ascii) (s1 s2 : string) :
  drop_char c (s1 ++ s2) = drop_char c s1 ++ drop_char c s2.
Proof.
  induction s1 as [|a s1 IH]; cbn [append drop_char]; [reflexivity|].
  destruct (Ascii.eqb a c); [exact IH | cbn [append]; now rewrite IH].
Qed.

Lemma replace_escaped_digits_keeps (n : nat) :
  forall s,
    String.length s < n ->
    drop_char backslash (replace_escaped_digits s) = drop_char backslash s
    /\ String.length (replace_escaped_digits s) <= String.length s.
Proof.
  induction n as [|n IH]; intros s Hlen; [lia|].
  destruct s as [|c s'].
  - rewrite replace_escaped_digits_equation_1. split; [reflexivity | lia].
  - destruct (match_escaped_digits (String c s')) as [[ds rest]|] eqn:Hm.
    + rewrite (replace_escaped_digits_match c s' ds rest Hm).
      pose proof (match_escaped_digits_length _ _ _ Hm) as Hr.
      destruct (match_escaped_digits_shape _ _ _ Hm) as [Hs _].
      destruct (IH rest ltac:(lia)) as [IHd IHl].
      rewrite Hs. unfold escaped. cbn [drop_char String.length].
      rewrite Ascii.eqb_refl, !drop_char_append, !length_append, IHd.
      split; [reflexivity | lia].
    + rewrite (replace_escaped_digits_no_match c s' Hm).
      cbn [String.length] in Hlen.
      destruct (IH s' ltac:(lia)) as [IHd IHl].
      cbn [drop_char String.length]. rewrite IHd.
      split; [reflexivity | lia].
Qed.

(** X4: the normalizer only ever deletes backslashes: with the
    backslashes taken out, its output and its input are the same text,
    so no other character is removed, altered or moved; and the output
    is never longer than the input. *)
Theorem replace_escaped_digits_only_drops_backslashes (s : string) :
  drop_char backslash (replace_escaped_digits s) = drop_char backslash s
  /\ String.length (replace_escaped_digits s) <= String.length s.
Proof.
  apply (replace_escaped_digits_keeps (S (String.length s))). lia.
Qed.

Lemma match_escaped_digits_before (s ds rest x : string) :
  starts_with_digit x = false ->
  match_escaped_digits s = Some (ds, rest) ->
  match_escaped_digits (s ++ x) = Some (ds, rest ++ x).
Proof.
  intros Hx. destruct s as [|c1 [|c2 s']]; try discriminate.
  cbn [append match_escaped_digits].
  destruct (Ascii.eqb c1 backslash && Ascii.eqb c2 backslash);
    [|discriminate].
  destruct (span_digits s') as [d r] eqn:Hs.
  rewrite (span_digits_append s' d r x Hs Hx).
  destruct d; [discriminate|]. now intros [= <- <-].
Qed.

Lemma match_escaped_digits_before_none (s : string) (c : ascii)
    (x : string) :
  Ascii.eqb c backslash = false -> is_digit c = false ->
  match_escaped_digits s = None ->
  match_escaped_digits (s ++ String c x) = None.
Proof.
  intros Hb Hd. destruct s as [|c1 [|c2 s']].
  - intros _. cbn [append match_escaped_digits].
    destruct x; [reflexivity|]. now rewrite Hb.
  - intros _. cbn [append match_escaped_digits].
    rewrite Hb, andb_false_r. reflexivity.
  - cbn [append match_escaped_digits].
    destruct (Ascii.eqb c1 backslash && Ascii.eqb c2 backslash);
      [|reflexivity].
    destruct (span_digits s') as [d r] eqn:Hs.
    rewrite (span_digits_append s' d r (String c x) Hs Hd).
    destruct d; [reflexivity | discriminate].
Qed.

Lemma replace_escaped_digits_around (n : nat) :
  forall s1 c s2,
    String.length s1 < n ->
    Ascii.eqb c backslash = false -> is_digit c = false ->
    replace_escaped_digits (s1 ++ String c s2)
    = replace_escaped_digits s1 ++ String c (replace_escaped_digits s2).
Proof.
  induction n as [|n IH]; intros s1 c s2 Hlen Hb Hd; [lia|].
  pose proof (match_escaped_digits_before_none "" c s2 Hb Hd eq_refl) as H0.
  destruct s1 as [|a s1'].
  - cbn [append] in *. rewrite replace_escaped_digits_equation_1.
    cbn [append]. now apply replace_escaped_digits_no_match.
  - destruct (match_escaped_digits (String a s1')) as [[d r]|] eqn:Hm.
    + pose proof (match_escaped_digits_length _ _ _ Hm) as Hr.
      rewrite (replace_escaped_digits_match a s1' d r Hm).
      pose proof (match_escaped_digits_before _ _ _ (String c s2) Hd Hm)
        as Hm'.
      cbn [append] in Hm' |- *.
      rewrite (replace_escaped_digits_match _ _ _ _ Hm').
      rewrite IH by (try assumption; lia).
      now rewrite append_assoc.
    + rewrite (replace_escaped_digits_no_match a s1' Hm).
      pose proof (match_escaped_digits_before_none _ c s2 Hb Hd Hm) as Hm'.
      cbn [append] in Hm' |- *.
      rewrite (replace_escaped_digits_no_match _ _ Hm').
      rewrite IH by (try assumption; cbn [String.length] in Hlen; lia).
      reflexivity.
Qed.

Lemma replace_escaped_digits_literal_text (body fl : string) :
  replace_escaped_digits ("/" ++ body ++ "/" ++ fl)
  = "/" ++ replace_escaped_digits body ++ "/" ++ replace_escaped_digits fl.
Proof.
  assert (H : forall s1 s2,
             replace_escaped_digits (s1 ++ String slash s2)
             = replace_escaped_digits s1
               ++ String slash (replace_escaped_digits s2)).
  { intros s1 s2. apply (replace_escaped_digits_around
                           (S (String.length s1))); [lia | | ]; reflexivity. }
  change ("/" ++ body ++ "/" ++ fl)
    with ("" ++ String slash (body ++ String slash fl)).
  rewrite (H "" _), (H body fl).
  rewrite replace_escaped_digits_equation_1. reflexivity.
Qed.

(** X5: the normalizer works on each side of a character that is
    neither a backslash nor a digit independently; in particular the
    delimiters of a shorthand text [/body/flags] stay in place and the
    body and the flags are normalized each on its own. *)
Theorem replace_escaped_digits_delimited :
  (forall s1 c s2,
      Ascii.eqb c backslash = false -> is_digit c = false ->
      replace_escaped_digits (s1 ++ String c s2)
      = replace_escaped_digits s1 ++ String c (replace_escaped_digits s2))
  /\ (forall body fl,
         replace_escaped_digits ("/" ++ body ++ "/" ++ fl)
         = "/" ++ replace_escaped_digits body
               ++ "/" ++ replace_escaped_digits fl).
Proof.
  split.
  - intros s1 c s2. apply (replace_escaped_digits_around
                             (S (String.length s1))). lia.
  - exact replace_escaped_digits_literal_text.
Qed.

(** ** The visit of a slot *)

Section Visits.

Variable regexpTree : RegexpTree.
Variable state : PluginPass.

(** What the [RegExpLiteral] visitor does to a slot, case by case. *)
Lemma dispatch_literal (path : NodePath) (re : RegExpLiteralNode) :
  node path = RegExpLiteral re ->
  dispatch regexpTree state path
  = match extra re with
    | None =>
        (path, Throw (TypeError "Cannot read property raw of undefined"))
    | Some e =>
        match getTranslatedData regexpTree (raw e) state with
        | Normal data =>
            ({| node_id := node_id path;
                node := RegExpLiteral
                          {| pattern := fst data; flags := snd data;
                             extra := extra re |};
                next_id := next_id path |}, Normal tt)
        | Throw x => (path, Throw x)
        end
    end.
Proof.
  intros Hn. unfold dispatch. rewrite Hn.
  unfold visitor.RegExpLiteral, bind, lift, assign.
  destruct (extra re) as [e|]; [|reflexivity].
  destruct (getTranslatedData regexpTree (raw e) state); reflexivity.
Qed.

(** The visit of a literal built by [toRegExpLiteral]. *)
Lemma dispatch_replacement (raw0 : string) (i k : nat) :
  dispatch regexpTree state
    {| node_id := i; node := toRegExpLiteral raw0; next_id := k |}
  = match getTranslatedData regexpTree raw0 state with
    | Normal data =>
        ({| node_id := i;
            node := RegExpLiteral
                      {| pattern := fst data; flags := snd data;
                         extra := Some {| raw := raw0 |} |};
            next_id := k |}, Normal tt)
    | Throw x =>
        ({| node_id := i; node := toRegExpLiteral raw0; next_id := k |},
         Throw x)
    end.
Proof.
  unfold dispatch, toRegExpLiteral. cbn [node].
  unfold visitor.RegExpLiteral, bind, lift, assign.
  cbn [extra set_extra raw node_id next_id].
  destruct (getTranslatedData regexpTree raw0 state); reflexivity.
Qed.

(** The three outcomes of one visitor call: the slot is as it was, or a
    literal was translated in place, or a call or a shorthand was
    replaced by the literal of its raw text. *)
Lemma dispatch_outcome (path p1 : NodePath) (c1 : completion unit) :
  dispatch regexpTree state path = (p1, c1) ->
  p1 = path
  \/ (c1 = Normal tt
      /\ exists re raw0 data,
          node path = RegExpLiteral re
          /\ extra re = Some {| raw := raw0 |}
          /\ getTranslatedData regexpTree raw0 state = Normal data
          /\ p1 = {| node_id := node_id path;
                     node := RegExpLiteral
                               {| pattern := fst data; flags := snd data;
                                  extra := extra re |};
                     next_id := next_id path |})
  \/ (c1 = Normal tt
      /\ exists raw0,
          ((exists callee arguments,
               node path = NewExpression callee arguments)
           \/ (exists tag quasi,
                  node path = TaggedTemplateExpression tag quasi))
          /\ p1 = {| node_id := next_id path;
                     node := toRegExpLiteral raw0;
                     next_id := S (next_id path) |}).
Proof.
  destruct (node path)
    as [nm|v|z|qs es|re|ob pr cp|cal args|cal args|tg qu] eqn:Hn;
    try (unfold dispatch; rewrite Hn; intros [= <- <-]; left; reflexivity).
  - rewrite (dispatch_literal path re Hn).
    destruct (extra re) as [[r]|] eqn:He;
      [|intros [= <- <-]; left; reflexivity].
    cbn [raw].
    destruct (getTranslatedData regexpTree r state) as [data|x] eqn:Hg;
      intros [= <- <-]; [|left; reflexivity].
    right. left. split; [reflexivity|].
    exists re, r, data. rewrite He. repeat split. exact Hg.
  - unfold dispatch. rewrite Hn.
    unfold visitor.NewExpression, bind, lift, ret, replaceWith.
    destruct (negb (ToBoolean (isNewRegExp cal args)));
      [intros [= <- <-]; left; reflexivity|].
    destruct (read_pattern args); [|intros [= <- <-]; left; reflexivity].
    destruct (read_flags args); intros [= <- <-];
      [|left; reflexivity].
    right. right. split; [reflexivity|]. eexists.
    split; [left; eauto | reflexivity].
  - unfold dispatch. rewrite Hn.
    unfold visitor.TaggedTemplateExpression, bind, lift, ret, replaceWith.
    destruct (negb (ToBoolean (useRe (opts state)))
              || negb (isReTemplate tg qu));
      [intros [= <- <-]; left; reflexivity|].
    destruct qu as [| | |quasis exprs| | | | |];
      try (intros [= <- <-]; left; reflexivity).
    destruct (first_quasi quasis); intros [= <- <-];
      [|left; reflexivity].
    right. right. split; [reflexivity|]. eexists.
    split; [right; eauto | reflexivity].
Qed.

(** X6: a replacement is never replaced in its turn: when a visitor has
    put another node in the slot, the visit of that node keeps the
    identity of the slot's node, so the requeueing started by
    [replaceWith] stops after one more visit. *)
Theorem requeue_settles (path : NodePath) :
  let p1 := fst (dispatch regexpTree state path) in
  node_id p1 <> node_id path ->
  node_id (fst (dispatch regexpTree state p1)) = node_id p1
  /\ next_id (fst (dispatch regexpTree state p1)) = next_id p1
  /\ exists re, node (fst (dispatch regexpTree state p1)) = RegExpLiteral re.
Proof.
  intros p1 Hid. subst p1.
  destruct (dispatch regexpTree state path) as [p1 c1] eqn:Hd.
  cbn [fst] in *.
  destruct (dispatch_outcome _ _ _ Hd)
    as [-> | [(_ & re & r & data & _ & _ & _ & ->)
             | (_ & raw0 & _ & ->)]];
    try (cbn [node_id] in Hid; congruence).
  rewrite dispatch_replacement.
  destruct (getTranslatedData regexpTree raw0 state);
    cbn [fst node_id next_id node]; repeat split; eexists; reflexivity.
Qed.

(** X7: after a visit that raised nothing, the slot is as it was or it
    holds a regex literal whose pattern and flags are exactly what the
    translation returned for the literal's [extra.raw]; no visited
    regular expression is left untranslated. *)
Theorem visit_translates (path path' : NodePath) :
  node_id path <> next_id path ->
  visit regexpTree state path = (path', Normal tt) ->
  path' = path
  \/ exists re raw0,
      node path' = RegExpLiteral re
      /\ extra re = Some {| raw := raw0 |}
      /\ getTranslatedData regexpTree raw0 state
         = Normal (pattern re, flags re).
Proof.
  intros Hfresh. unfold visit.
  destruct (dispatch regexpTree state path) as [p1 c1] eqn:Hd.
  destruct (dispatch_outcome _ _ _ Hd)
    as [-> | [(-> & re & r & data & Hn & He & Hg & ->)
             | (-> & raw0 & _ & ->)]].
  - destruct c1 as [[]|e]; [|discriminate].
    rewrite Nat.eqb_refl. intros [= <-]. left. reflexivity.
  - cbn [node_id]. rewrite Nat.eqb_refl. intros [= <-]. right.
    eexists. exists r. cbn [node extra pattern flags].
    split; [reflexivity|]. split; [exact He|].
    rewrite Hg. destruct data; reflexivity.
  - cbn [node_id].
    destruct (Nat.eqb_spec (next_id path) (node_id path)) as [E|_];
      [congruence|].
    rewrite dispatch_replacement.
    destruct (getTranslatedData regexpTree raw0 state) as [data|x] eqn:Hg;
      [|discriminate].
    intros [= <-]. right. eexists. exists raw0.
    cbn [node extra pattern flags].
    split; [reflexivity|]. split; [reflexivity|].
    rewrite Hg. destruct data; reflexivity.
Qed.

(** X8: visiting once more a slot whose visit raised nothing changes
    nothing: the literal is translated again from its [extra.raw], which
    the first visit left as it was, and a node the first visit skipped
    is skipped again. *)
Theorem visit_twice (path path' : NodePath) :
  node_id path <> next_id path ->
  visit regexpTree state path = (path', Normal tt) ->
  visit regexpTree state path' = (path', Normal tt).
Proof.
  intros Hfresh Hv.
  assert (Hlit : forall p re r data,
             node p = RegExpLiteral re ->
             extra re = Some {| raw := r |} ->
             getTranslatedData regexpTree r state = Normal data ->
             pattern re = fst data -> flags re = snd data ->
             visit regexpTree state p = (p, Normal tt)).
  { intros p re r data Hn He Hg Hp Hf. unfold visit.
    rewrite (dispatch_literal p re Hn), He. cbn [raw]. rewrite Hg.
    cbn [node_id]. rewrite Nat.eqb_refl. f_equal.
    destruct p as [i n k]. cbn [node] in Hn. subst n.
    cbn [node_id next_id]. do 2 f_equal.
    destruct re as [pa fl ex]. cbn in *. congruence. }
  revert Hv. unfold visit at 1.
  destruct (dispatch regexpTree state path) as [p1 c1] eqn:Hd.
  destruct (dispatch_outcome _ _ _ Hd)
    as [-> | [(-> & re & r & data & Hn & He & Hg & ->)
             | (-> & raw0 & _ & ->)]].
  - destruct c1 as [[]|e]; [|discriminate].
    rewrite Nat.eqb_refl. intros [= <-].
    unfold visit. rewrite Hd, Nat.eqb_refl. reflexivity.
  - cbn [node_id]. rewrite Nat.eqb_refl. intros [= <-].
    eapply Hlit; [reflexivity | exact He | exact Hg | reflexivity..].
  - cbn [node_id].
    destruct (Nat.eqb_spec (next_id path) (node_id path)) as [E|_];
      [congruence|].
    rewrite dispatch_replacement.
    destruct (getTranslatedData regexpTree raw0 state) as [data|x] eqn:Hg;
      [|discriminate].
    intros [= <-].
    eapply Hlit; [reflexivity | reflexivity | exact Hg | reflexivity..].
Qed.


End Visits.

(** ** More on the constructor call and the shorthand *)

Section Rewrites.

Variable regexpTree : RegexpTree.
Variable state : PluginPass.

(** X10: a flags argument that is a template literal is read through its
    first chunk only: later chunks and the interpolated expressions are
    dropped without an error, in both revisions of the visitor. *)
Theorem NewExpression_template_flags (callee a0 : Node)
    (q : TemplateElement) (qs : list TemplateElement)
    (es rest : list Node) (path : NodePath) :
  let arguments := a0 :: TemplateLiteral (q :: qs) es :: rest in
  ToBoolean (isNewRegExp callee arguments) = true ->
  exists p,
    read_pattern arguments = Normal (Some p)
    /\ visitor.NewExpression callee arguments state path
       = replaceWith
           (toRegExpLiteral ("/" ++ p ++ "/" ++ value_cooked q)) path
    /\ Legacy.visitor.NewExpression regexpTree callee arguments state path
       = match getTranslatedData regexpTree
                 ("/" ++ p ++ "/" ++ value_cooked q) state with
         | Normal data =>
             ({| node_id := node_id path;
                 node := NewExpression callee
                           (StringLiteral (fst data)
                              :: StringLiteral (snd data) :: rest);
                 next_id := next_id path |}, Normal tt)
         | Throw e => (path, Throw e)
         end.
Proof.
  intros arguments Hm.
  destruct (isNewRegExp_reads _ _ Hm) as (a & rest' & p & _ & Hp).
  assert (Hf : read_flags arguments = Normal (value_cooked q))
    by reflexivity.
  exists p. split; [exact Hp|]. split.
  - unfold visitor.NewExpression, bind, lift.
    rewrite Hm, Hp, Hf. reflexivity.
  - unfold Legacy.visitor.NewExpression, bind, lift, assign.
    rewrite Hm, Hp, Hf. cbn [negb interpolate].
    destruct (getTranslatedData regexpTree _ state) as [data|e];
      reflexivity.
Qed.

(** X11: the earlier revision never puts another node in a slot: the
    identity of the node is kept whatever the outcome, a constructor
    call stays a call of the same callee that loses no argument and
    keeps those past the second, and a tagged template is not
    touched. *)
Theorem legacy_keeps_node (path path' : NodePath) (c : completion unit) :
  LegacyHost.dispatch regexpTree state path = (path', c) ->
  node_id path' = node_id path
  /\ next_id path' = next_id path
  /\ (forall callee arguments,
         node path = NewExpression callee arguments ->
         exists arguments',
           node path' = NewExpression callee arguments'
           /\ skipn 2 arguments' = skipn 2 arguments
           /\ List.length arguments <= List.length arguments')
  /\ (forall tag quasi,
         node path = TaggedTemplateExpression tag quasi -> path' = path).
Proof.
  unfold LegacyHost.dispatch.
  destruct (node path)
    as [nm|v|z|qs es|re|ob pr cp|cal args|cal args|tg qu] eqn:Hn;
    try (intros [= <- <-]; repeat split; try discriminate;
         intros ? ? [= <- <-]; reflexivity).
  - unfold Legacy.visitor.RegExpLiteral, bind, lift, assign.
    destruct (extra re) as [e|];
      [|intros [= <- <-]; repeat split; discriminate].
    destruct (getTranslatedData regexpTree (raw e) state);
      intros [= <- <-]; repeat split; discriminate.
  - assert (Hsame : path' = path ->
              node_id path' = node_id path
              /\ next_id path' = next_id path
              /\ (forall callee arguments,
                     NewExpression cal args
                     = NewExpression callee arguments ->
                     exists arguments',
                       node path' = NewExpression callee arguments'
                       /\ skipn 2 arguments' = skipn 2 arguments
                       /\ List.length arguments <= List.length arguments')
              /\ (forall tag quasi,
                     NewExpression cal args
                     = TaggedTemplateExpression tag quasi -> path' = path)).
    { intros ->. repeat split; try discriminate.
      intros callee arguments [= <- <-]. exists args.
      split; [exact Hn|]. split; [reflexivity | lia]. }
    unfold Legacy.visitor.NewExpression, bind, lift, ret, assign.
    destruct (negb (ToBoolean (isNewRegExp cal args))) eqn:Hm;
      [intros [= <- <-]; now apply Hsame|].
    apply negb_false_iff in Hm.
    destruct (isNewRegExp_reads cal args Hm) as (a & rest & p & Ha & Hp).
    rewrite Hp.
    destruct (read_flags args); [|intros [= <- <-]; now apply Hsame].
    destruct (getTranslatedData regexpTree _ state) as [data|e];
      [|intros [= <- <-]; now apply Hsame].
    clear Hsame. subst args. rewrite array_set_first_two.
    intros [= <- <-]. cbn [node_id next_id node].
    repeat split; try discriminate.
    intros callee arguments [= <- <-].
    eexists. split; [reflexivity|].
    destruct rest; split; cbn [skipn List.length]; (reflexivity || lia).
Qed.

(** X12: the whole rewrite of a matched shorthand.  The raw text of its
    chunk is normalized and handed to the translation as it is; on
    success the slot holds a fresh literal with the translated pattern
    and flags and the normalized text as [extra.raw], on failure the
    untranslated literal of that text.  For a chunk of the form
    [/body/flags] the text handed over is the normalized body and the
    normalized flags between the same delimiters. *)
Theorem shorthand_rewrite (q : TemplateElement) (es : list Node)
    (path : NodePath) :
  ToBoolean (useRe (opts state)) = true ->
  node path
  = TaggedTemplateExpression (Identifier "re") (TemplateLiteral [q] es) ->
  node_id path <> next_id path ->
  let text := replace_escaped_digits (value_raw q) in
  visit regexpTree state path
  = match getTranslatedData regexpTree text state with
    | Normal data =>
        ({| node_id := next_id path;
            node := RegExpLiteral
                      {| pattern := fst data; flags := snd data;
                         extra := Some {| raw := text |} |};
            next_id := S (next_id path) |}, Normal tt)
    | Throw x =>
        ({| node_id := next_id path;
            node := toRegExpLiteral text;
            next_id := S (next_id path) |}, Throw x)
    end
  /\ forall body fl,
      value_raw q = "/" ++ body ++ "/" ++ fl ->
      text = "/" ++ replace_escaped_digits body
                 ++ "/" ++ replace_escaped_digits fl.
Proof.
  intros Hre Hn Hfresh text. split.
  - unfold visit, dispatch at 1. rewrite Hn.
    unfold visitor.TaggedTemplateExpression, bind, lift, replaceWith.
    rewrite Hre. cbn [negb orb isReTemplate String.eqb Ascii.eqb Bool.eqb
                      andb List.length Nat.eqb first_quasi nth_error].
    cbn [node_id].
    destruct (Nat.eqb_spec (next_id path) (node_id path)) as [E|_];
      [congruence|].
    apply dispatch_replacement.
  - intros body fl Hq. subst text. rewrite Hq.
    apply replace_escaped_digits_literal_text.
Qed.

End Rewrites.

(** ** The further properties at work on sample inputs *)

Lemma toRegExpLiteral_last_slash_witness :
  includes "i" slash = false
  /\ toRegExpLiteral "/a/g/i"
     = RegExpLiteral {| pattern := "a/g"; flags := "/i";
                        extra := Some {| raw := "/a/g/i" |} |}.
Proof.
  split; [reflexivity|].
  apply (toRegExpLiteral_last_slash "/" "a/g" "i"). reflexivity.
Defined.

Lemma toRegExpLiteral_no_slash_witness :
  includes "abc" slash = false
  /\ toRegExpLiteral "abc"
     = RegExpLiteral {| pattern := "b"; flags := "c";
                        extra := Some {| raw := "abc" |} |}.
Proof.
  split; [reflexivity|].
  apply (toRegExpLiteral_no_slash "a" "c" "b"). reflexivity.
Defined.

Lemma toRegExpLiteral_leading_slash_only_witness :
  includes "abc" slash = false
  /\ toRegExpLiteral "/abc"
     = RegExpLiteral {| pattern := ""; flags := "/abc";
                        extra := Some {| raw := "/abc" |} |}.
Proof.
  split; [reflexivity|].
  apply (toRegExpLiteral_leading_slash_only "abc"). reflexivity.
Defined.

Lemma replace_escaped_digits_delimited_witness :
  replace_escaped_digits (escaped "1" ++ String "-" (escaped "2"))
  = replace_escaped_digits (escaped "1")
    ++ String "-" (replace_escaped_digits (escaped "2")).
Proof.
  apply (proj1 replace_escaped_digits_delimited); reflexivity.
Defined.

Lemma requeue_settles_witness :
  node_id (fst (dispatch sample_engine sample_state sample_call))
  <> node_id sample_call
  /\ node_id (fst (dispatch sample_engine sample_state
                     (fst (dispatch sample_engine sample_state sample_call))))
     = node_id (fst (dispatch sample_engine sample_state sample_call)).
Proof.
  split; [vm_compute; lia|].
  apply (requeue_settles sample_engine sample_state sample_call).
  vm_compute. lia.
Defined.

Lemma visit_translates_witness :
  visit sample_engine sample_state sample_call
  = ({| node_id := 1;
        node := RegExpLiteral
                  {| pattern := "a"; flags := "g";
                     extra := Some {| raw := "/a/gx" |} |};
        next_id := 2 |}, Normal tt)
  /\ ({| node_id := 1;
         node := RegExpLiteral
                   {| pattern := "a"; flags := "g";
                      extra := Some {| raw := "/a/gx" |} |};
         next_id := 2 |} = sample_call
      \/ exists re raw0,
          RegExpLiteral
            {| pattern := "a"; flags := "g";
               extra := Some {| raw := "/a/gx" |} |}
          = RegExpLiteral re
          /\ extra re = Some {| raw := raw0 |}
          /\ getTranslatedData sample_engine raw0 sample_state
             = Normal (pattern re, flags re)).
Proof.
  split; [reflexivity|].
  apply (visit_translates sample_engine sample_state sample_call
           {| node_id := 1;
              node := RegExpLiteral
                        {| pattern := "a"; flags := "g";
                           extra := Some {| raw := "/a/gx" |} |};
              next_id := 2 |}).
  - vm_compute. lia.
  - reflexivity.
Defined.

Lemma visit_twice_witness :
  visit sample_engine sample_state
    (fst (visit sample_engine sample_state sample_call))
  = (fst (visit sample_engine sample_state sample_call), Normal tt).
Proof.
  apply (visit_twice sample_engine sample_state sample_call).
  - vm_compute. lia.
  - reflexivity.
Defined.


Lemma NewExpression_template_flags_witness :
  let g := {| value_raw := "g"; value_cooked := "g" |} in
  let i := {| value_raw := "i"; value_cooked := "i" |} in
  let arguments :=
    [StringLiteral "a"; TemplateLiteral [g; i] [Identifier "more"]] in
  ToBoolean (isNewRegExp (Identifier "RegExp") arguments) = true
  /\ visitor.NewExpression (Identifier "RegExp") arguments
       sample_state sample_call
     = replaceWith (toRegExpLiteral "/a/g") sample_call.
Proof.
  intros g i arguments. split; [reflexivity|].
  destruct (NewExpression_template_flags sample_engine sample_state
              (Identifier "RegExp") (StringLiteral "a") g [i]
              [Identifier "more"] [] sample_call eq_refl)
    as (p & Hp & Hcur & _).
  injection Hp as <-. exact Hcur.
Defined.

Lemma legacy_keeps_node_witness :
  LegacyHost.dispatch sample_engine sample_state sample_call
  = ({| node_id := 0;
        node := NewExpression (Identifier "RegExp")
                  [StringLiteral "a"; StringLiteral "g"];
        next_id := 1 |}, Normal tt)
  /\ node_id {| node_id := 0;
                node := NewExpression (Identifier "RegExp")
                          [StringLiteral "a"; StringLiteral "g"];
                next_id := 1 |}
     = node_id sample_call.
Proof.
  split; [reflexivity|].
  apply (legacy_keeps_node sample_engine sample_state sample_call _
           (Normal tt)).
  reflexivity.
Defined.

Lemma shorthand_rewrite_witness :
  ToBoolean (useRe (opts shorthand_state)) = true
  /\ node_id shorthand_path <> next_id shorthand_path
  /\ visit sample_engine shorthand_state shorthand_path
     = match getTranslatedData sample_engine
               (replace_escaped_digits (value_raw shorthand_chunk))
               shorthand_state with
       | Normal data =>
           ({| node_id := 1;
               node := RegExpLiteral
                         {| pattern := fst data; flags := snd data;
                            extra :=
                              Some {| raw := replace_escaped_digits
                                               (value_raw shorthand_chunk) |}
                         |};
               next_id := 2 |}, Normal tt)
       | Throw x =>
           ({| node_id := 1;
               node := toRegExpLiteral
                         (replace_escaped_digits (value_raw shorthand_chunk));
               next_id := 2 |}, Throw x)
       end.
Proof.
  split; [reflexivity|]. split; [vm_compute; lia|].
  apply (proj1 (shorthand_rewrite sample_engine shorthand_state
                  shorthand_chunk [] shorthand_path eq_refl eq_refl
                  ltac:(vm_compute; lia))).
Defined.
